(** * Verification of the highz digital spectrometer control code

  Shallow embedding of the acquisition core of
  [src/src/run_spectrometer.py], [src/src/fpga_helper.py] and
  [src/src/rcal.py]: calibration switch driving, deinterleaving of the
  per-channel accumulator memory, accumulation counter polling, the
  averaged save mode, record file names, session/subdirectory bookkeeping
  of [save_data], the FPGA address discovery fallback chain, the
  [run_gpiozero] sweep, the acquisition schedule of [main], and the
  discovery retries of [initialize_fpga]. *)

From Stdlib Require Import ZArith Lia List Bool String Ascii.
From Stdlib Require Import Numbers.DecimalString.
Import ListNotations.
Open Scope list_scope.

Open Scope Z_scope.

(* ------------------------------------------------------------------ *)
(** ** rcal.py : the calibration switch *)

Module Rcal.

(** The three GPIO output lines: [gpio_pin0] (LED 21, line A),
    [gpio_pin1] (LED 20, line B), [gpio_pin2] (LED 16, line C), and the
    list of [time.sleep] durations performed so far. *)
Record gpio_state := mk_gpio {
  gpio_pin0 : bool;
  gpio_pin1 : bool;
  gpio_pin2 : bool;
  sleeps : list Z
}.

Definition invalid_msg : string :=
  "Invalid calibration index. Please choose a number between 0 and 7, or 10.".

(** [if x: ... .on() else ... .off()] on the integer [x = idx & mask]. *)
Definition drive (x : Z) : bool := negb (x =? 0).

(** [gpio_switch(n, t)]: returns [Some invalid_msg] (the returned string)
    on the guard, [None] (Python's implicit [None]) otherwise, together
    with the new line state. *)
Definition gpio_switch (n t : Z) (s : gpio_state) : option string * gpio_state :=
  if ((n <? 0) || (7 <? n)) && negb (n =? 10) then (Some invalid_msg, s)
  else
    let idx := 7 - n in
    let pin2 := Z.land idx 4 in
    let pin1 := Z.land idx 2 in
    let pin0 := Z.land idx 1 in
    (None, mk_gpio (drive pin0) (drive pin1) (drive pin2) (sleeps s ++ [t])).

(** The three line levels (A, B, C) after a call. *)
Definition lines (s : gpio_state) : bool * bool * bool :=
  (gpio_pin0 s, gpio_pin1 s, gpio_pin2 s).

Definition switch_lines (n t : Z) (s : gpio_state) : bool * bool * bool :=
  lines (snd (gpio_switch n t s)).

End Rcal.

(* ------------------------------------------------------------------ *)
(** ** get_vacc_data : reading and deinterleaving the accumulators *)

Module Vacc.

(** Python [str(int)] / f-string rendering of an integer. *)
Definition Z_to_string (x : Z) : string :=
  NilEmpty.string_of_int (Z.to_int x).

Definition byte_val (b : Byte.byte) : Z := Z.of_N (Byte.to_N b).

(** One big-endian unsigned 64-bit integer (struct format [>Q]) from its
    8 bytes. *)
Definition be_u64 (bs : list Byte.byte) : Z :=
  fold_left (fun acc b => acc * 256 + byte_val b) bs 0.

(** [struct.unpack('>{m}Q', raw)]: [None] is [struct.error], raised
    unless [raw] holds exactly [8 * m] bytes. *)
Fixpoint unpack_be_u64 (m : nat) (raw : list Byte.byte) : option (list Z) :=
  match m with
  | O => match raw with [] => Some [] | _ => None end
  | S m' =>
      let w := firstn 8 raw in
      if Nat.eqb (List.length w) 8
      then option_map (cons (be_u64 w)) (unpack_be_u64 m' (skipn 8 raw))
      else None
  end.

(** The double loop
    [for sample_idx in range(M): for channel_idx in range(C):
       interleaved.append(channel_data[channel_idx, sample_idx])]. *)
Definition interleave {A : Type} (dflt : A) (C M : nat) (rows : list (list A))
    : list A :=
  flat_map (fun i => map (fun j => nth i (nth j rows []) dflt) (seq 0 C))
           (seq 0 M).

(** The per-channel register name ['q{:d}'.format(channel_idx + 1)]. *)
Definition reg_name (channel_idx : nat) : string :=
  ("q" ++ Z_to_string (Z.of_nat (channel_idx + 1)))%string.

(** Decoding all channels; the first decoding error aborts. *)
Fixpoint decode_channels (M : nat) (read : string -> nat -> list Byte.byte)
    (idxs : list nat) : option (list (list Z)) :=
  match idxs with
  | [] => Some []
  | i :: r =>
      match unpack_be_u64 M (read (reg_name i) (M * 8)%nat) with
      | None => None
      | Some row =>
          option_map (cons row) (decode_channels M read r)
      end
  end.

(** [get_vacc_data(fpga)] for [NCHANNELS] channels and FFT length [NFFT].
    [read name size] is [fpga.read(name, size, 0)] and [acc_cnt] the value
    of the final [fpga.read_uint('acc_cnt')].  [None] stands for the
    exceptions: [ZeroDivisionError] when [NCHANNELS = 0] and
    [struct.error] on a short block.  [channel_data] is a float64 numpy
    array in the source; the samples are kept here as the decoded
    integers (the float conversion acts on each element alone and does not
    move any sample). *)
Definition get_vacc_data (NCHANNELS NFFT : nat)
    (read : string -> nat -> list Byte.byte) (acc_cnt : Z)
    : option (list Z * Z) :=
  if Nat.eqb NCHANNELS 0 then None
  else
    let half_nfft := Nat.div NFFT 2 in
    let samples_per_channel := Nat.div half_nfft NCHANNELS in
    match decode_channels samples_per_channel read (seq 0 NCHANNELS) with
    | None => None
    | Some channel_data =>
        Some (interleave 0 NCHANNELS samples_per_channel channel_data, acc_cnt)
    end.

(** Big-endian encoding of one 64-bit value, used to build test memories. *)
Definition be_bytes_u64 (v : Z) : list Byte.byte :=
  map (fun k => match Byte.of_N (Z.to_N (Z.land (Z.shiftr v (8 * k)) 255)) with
                | Some b => b | None => Byte.x00 end)
      [7; 6; 5; 4; 3; 2; 1; 0].

Definition encode_channel (row : list Z) : list Byte.byte :=
  flat_map be_bytes_u64 row.

End Vacc.

(* ------------------------------------------------------------------ *)
(** ** get_acc_cnt / print_acc_cnt : waiting for a new accumulation *)

Module AccCnt.

(** The [while acc_n == last_acc_n] loop over the remaining counter reads
    [rest]; [None] means the reads ran out while still waiting (the
    source keeps blocking). *)
Fixpoint poll (rest : list Z) (last_acc_n acc_n : Z) (c : nat)
    : option (Z * nat) :=
  if acc_n =? last_acc_n then
    match rest with
    | [] => None
    | a :: r => poll r last_acc_n a (S c)
    end
  else Some (acc_n, c).

(** [get_acc_cnt(fpga, last_acc_n)]; [reads] lists the values returned by
    the successive [fpga.read_uint('acc_cnt')] calls. *)
Definition get_acc_cnt (reads : list Z) (last_acc_n : Z) : option (Z * nat) :=
  match reads with
  | [] => None
  | acc_n :: rest =>
      let last_acc_n := if acc_n >? last_acc_n then acc_n else last_acc_n in
      poll rest last_acc_n acc_n 1
  end.

(** [print_acc_cnt] in [run_spectrometer.py] runs the same loop and
    returns only the count. *)
Definition print_acc_cnt (reads : list Z) (last_acc_n : Z) : option Z :=
  option_map fst (get_acc_cnt reads last_acc_n).

End AccCnt.

(* ------------------------------------------------------------------ *)
(** ** save_data / get_sub_directory : session bookkeeping *)

Module Session.
Local Open Scope string_scope.

(** The module globals of [run_spectrometer.py] that [save_data]
    declares [global]. *)
Record session := mk_session {
  cycle_count : Z;
  sub_dir_count : Z;
  current_parent_dir : option string;
  current_sub_dir_path : option string
}.

(** The storage as [save_data] observes it: the entries of [BASE_PATH] in
    the order [next(os.walk(BASE_PATH))[1]] yields them (directory listing
    order), the directories below them (full paths), and the written
    [.npy] files. *)
Record fs := mk_fs {
  drive_sessions : list string;
  dirs : list string;
  files : list string
}.

Inductive py_error := IndexError | FileExistsError.

Inductive result (A : Type) :=
| Ok : A -> result A
| Err : py_error -> result A.
Arguments Ok {A} _.
Arguments Err {A} _.

Definition BASE_PATH : string := "/media/peterson".

Definition is_slash (c : ascii) : bool := Ascii.eqb c "/"%char.

Fixpoint ends_with_slash (s : string) : bool :=
  match s with
  | EmptyString => false
  | String c EmptyString => is_slash c
  | String _ r => ends_with_slash r
  end.

(** [os.path.join(a, b)] (posixpath): an absolute [b] replaces [a]. *)
Definition join (a b : string) : string :=
  match b with
  | String c _ => if is_slash c then b
                  else if ends_with_slash a || (a =? "") then a ++ b
                  else a ++ "/" ++ b
  | EmptyString => if ends_with_slash a || (a =? "") then a else a ++ "/"
  end.

(** [s.split('_')[0]]. *)
Fixpoint first_token (s : string) : string :=
  match s with
  | EmptyString => EmptyString
  | String c r => if Ascii.eqb c "_"%char then EmptyString
                  else String c (first_token r)
  end.

(** [l[-1]]; [None] is [IndexError] on an empty list. *)
Fixpoint py_last (l : list string) : option string :=
  match l with
  | [] => None
  | [x] => Some x
  | _ :: r => py_last r
  end.

Definition path_exists (p : string) (f : fs) : bool :=
  existsb (String.eqb p) (dirs f).

(** [name in os.listdir(d)]: a listed entry is a single path component. *)
Definition in_listdir (d name : string) (f : fs) : bool :=
  negb (existsb is_slash (list_ascii_of_string name)) &&
  negb (name =? "") && path_exists (d ++ "/" ++ name) f.

Definition add_dir (p : string) (f : fs) : fs :=
  mk_fs (drive_sessions f) (dirs f ++ [p]) (files f).

(** [os.mkdir(p)]. *)
Definition mkdir (p : string) (f : fs) : result fs :=
  if path_exists p f then Err FileExistsError else Ok (add_dir p f).

(** [get_sub_directory(parent_dir_path, sub_dir_count)]; [hms] is the
    current UTC time formatted ['%H%M%S']. *)
Definition get_sub_directory (parent_dir_path : string) (sub_dir_count : Z)
    (hms : string) (f : fs) : string * Z * fs :=
  let sub_dir_path := join parent_dir_path hms in
  if negb (path_exists sub_dir_path f)
  then (sub_dir_path, sub_dir_count + 1, add_dir sub_dir_path f)
  else (sub_dir_path, sub_dir_count, f).

(** [np.save(file_path, ...)]: the file is (re)written. *)
Definition np_save (p : string) (f : fs) : fs :=
  mk_fs (drive_sessions f) (dirs f)
        (filter (fun q => negb (q =? p)) (files f) ++ [p]).

(** [save_data(dataDict, filename)] with the globals [SAVE_DATA] and
    [run_directory] as parameters.  [wait_for_storage] is assumed to have
    returned (the mount is present).  Returns the storage and the session
    after the call. *)
Definition save_data (SAVE_DATA : bool) (run_directory : option string)
    (hms : string) (f : fs) (st : session) (filename : string)
    : result (fs * session) :=
  if negb SAVE_DATA then Ok (f, st)
  else
    match py_last (drive_sessions f) with
    | None => Err IndexError
    | Some dirname =>
        let parent_dir_name :=
          match run_directory with
          | Some r => r
          | None => first_token filename
          end in
        let parent_dir_path := join (join BASE_PATH dirname) parent_dir_name in
        let f1 :=
          if in_listdir (join BASE_PATH dirname) parent_dir_name f
          then Ok f else mkdir parent_dir_path f in
        match f1 with
        | Err e => Err e
        | Ok f1 =>
            let '(st1, f2) :=
              if Z.leb 1 (cycle_count st) ||
                 match current_sub_dir_path st with None => true | Some _ => false end then
                let '(p, cnt, f2) :=
                  get_sub_directory parent_dir_path (sub_dir_count st) hms f1 in
                (mk_session 0 cnt (Some parent_dir_name) (Some p), f2)
              else (st, f1) in
            let sub := match current_sub_dir_path st1 with
                       | Some p => p | None => "" end in
            let file_path := join sub (filename ++ ".npy") in
            Ok (np_save file_path f2, st1)
        end
    end.

(** [cycle_count += 1] at the end of one calibration + observation cycle
    in [main]. *)
Definition end_cycle (st : session) : session :=
  mk_session (cycle_count st + 1) (sub_dir_count st)
             (current_parent_dir st) (current_sub_dir_path st).

(** The initial values set by [main]. *)
Definition init_session : session := mk_session 0 0 None None.

End Session.

(* ------------------------------------------------------------------ *)
(** ** save_all_data, averaged mode : summing three accumulations *)

Module Averaged.

(** A Python dict keyed by accumulation id, in insertion order:
    [d[k] = v] replaces the value of an existing key in place and appends
    a new key at the end. *)
Definition dict (A : Type) := list (Z * A).

Definition dict_set {A : Type} (k : Z) (v : A) (d : dict A) : dict A :=
  if existsb (fun kv => fst kv =? k) d
  then map (fun kv => if fst kv =? k then (k, v) else kv) d
  else d ++ [(k, v)].

(** [while len(spectra) < 3: acc_n = print_acc_cnt(...);
    s, cnt = get_vacc_data(fpga); spectra[cnt] = s].
    [acqs] lists the [(cnt, s)] pairs of the successive iterations; the
    result is the dict and the acquisitions left unused, or [None] if the
    acquisitions ran out (the source keeps waiting). *)
Fixpoint collect (acqs : list (Z * list Z)) (spectra : dict (list Z))
    : option (dict (list Z) * list (Z * list Z)) :=
  if Nat.ltb (List.length spectra) 3 then
    match acqs with
    | [] => None
    | (cnt, s) :: rest => collect rest (dict_set cnt s spectra)
    end
  else Some (spectra, acqs).

(** The heads of all rows, [None] as soon as one row is exhausted. *)
Fixpoint heads (rows : list (list Z)) : option (list Z) :=
  match rows with
  | [] => Some []
  | [] :: _ => None
  | (x :: _) :: r => option_map (cons x) (heads r)
  end.

Fixpoint sum_columns (n : nat) (rows : list (list Z)) : list Z :=
  match n with
  | O => []
  | S n' =>
      match heads rows with
      | None => []
      | Some hs => fold_left Z.add hs 0 :: sum_columns n' (map (@tl Z) rows)
      end
  end.

(** [sum_spectrum(spectrum) = [sum(x) for x in zip( *spectrum)]]. *)
Definition sum_spectrum (spectrum : list (list Z)) : list Z :=
  match spectrum with
  | [] => []
  | r :: _ => sum_columns (List.length r) spectrum
  end.

(** The spectrum stored by [save_all_data] in averaged mode
    ([SAVE_EACH_ACC = False]). *)
Definition averaged_spectrum (acqs : list (Z * list Z)) : option (list Z) :=
  match collect acqs [] with
  | None => None
  | Some (spectra, _) => Some (sum_spectrum (map snd spectra))
  end.

(** The spectrum most recently acquired under id [k] in [acqs]. *)
Fixpoint last_for (k : Z) (acqs : list (Z * list Z)) : option (list Z) :=
  match acqs with
  | [] => None
  | (k', s) :: rest =>
      match last_for k rest with
      | Some s' => Some s'
      | None => if k' =? k then Some s else None
      end
  end.

(** The spectrum first acquired under id [k] in [acqs]. *)
Fixpoint first_for (k : Z) (acqs : list (Z * list Z)) : option (list Z) :=
  match acqs with
  | [] => None
  | (k', s) :: rest => if k' =? k then Some s else first_for k rest
  end.

End Averaged.

(* ------------------------------------------------------------------ *)
(** ** write_filename : record file names *)

Module Filename.
Local Open Scope string_scope.

(** The [acc_n] argument: an accumulation count or a string marker. *)
Inductive py_val := PInt (n : Z) | PStr (s : string).

Definition py_str (v : py_val) : string :=
  match v with PInt n => Vacc.Z_to_string n | PStr s => s end.

(** [write_filename(state, acc_n)] with the globals [SAVE_EACH_ACC] and
    [ANTENNA] as parameters; [ts] is the current UTC time formatted
    ['%Y%m%d_%H%M%S']. *)
Definition write_filename (SAVE_EACH_ACC : bool) (ANTENNA ts : string)
    (state : Z) (acc_n : py_val) : string :=
  let basename := ts ++ "_antenna" ++ ANTENNA ++ "_state" ++ Vacc.Z_to_string state in
  if SAVE_EACH_ACC then basename ++ "_" ++ py_str acc_n else basename.

(** The filename [save_all_data] builds: [write_filename(switch_value,
    cnt)] in per-accumulation mode, [write_filename(switch_value,
    'average')] in averaged mode. *)
Definition record_filename (SAVE_EACH_ACC : bool) (ANTENNA ts : string)
    (switch_value cnt : Z) : string :=
  if SAVE_EACH_ACC
  then write_filename SAVE_EACH_ACC ANTENNA ts switch_value (PInt cnt)
  else write_filename SAVE_EACH_ACC ANTENNA ts switch_value (PStr "average").

End Filename.

(* ------------------------------------------------------------------ *)
(** ** discover_fpga_address : the address discovery fallback chain *)

Module Discover.

(** The outcomes of the network calls, as seen by the source.
    - [resolve h]: [socket.gethostbyname(h)], [None] for [socket.gaierror];
    - [connect4 ip]: whether [socket.create_connection((ip, 7147))]
      succeeds ([false]: [socket.timeout], [ConnectionRefusedError] or
      another [OSError]);
    - [link_ifaces]: the interface names [re.findall] extracts from
      [ip link show], [None] when [subprocess.run] raises;
    - [neigh iface]: the [fe80::] addresses found for [iface] in
      [ip neigh show] after the multicast ping, [None] when one of the two
      subprocess calls raises;
    - [connect6 a iface]: whether the scoped connect succeeds. *)
Record env := mk_env {
  resolve : string -> option string;
  connect4 : string -> bool;
  link_ifaces : option (list string);
  neigh : string -> option (list string);
  connect6 : string -> string -> bool
}.

(** Observable attempts, in the order they are made. *)
Inductive event :=
| Resolve (h : string)
| Connect (ip : string)
| Probe (iface : string)
| Connect6 (a iface : string).

Definition fallback_hostnames : list string :=
  ["rfsoc"%string; "localhost.localdomain"%string; "localhost"%string].

(** [list(dict.fromkeys(l))]: first occurrences, in order. *)
Definition dict_fromkeys (l : list string) : list string :=
  fold_left (fun acc x => if existsb (String.eqb x) acc then acc else acc ++ [x])
            l [].

(** [hostnames_to_try]; [hostname_hint] is falsy when [None] or [""]. *)
Definition hostnames_to_try (hostname_hint : option string) : list string :=
  let hs := match hostname_hint with
            | Some h => if String.eqb h "" then [] else [h]
            | None => []
            end in
  dict_fromkeys (hs ++ fallback_hostnames).

(** Method 1. *)
Fixpoint try_hostnames (e : env) (hs : list string)
    : option string * list event :=
  match hs with
  | [] => (None, [])
  | h :: r =>
      match resolve e h with
      | None =>
          let '(res, tr) := try_hostnames e r in (res, Resolve h :: tr)
      | Some ip =>
          if connect4 e ip then (Some ip, [Resolve h; Connect ip])
          else let '(res, tr) := try_hostnames e r in
               (res, Resolve h :: Connect ip :: tr)
      end
  end.

(** The inner [for ipv6_addr in matches] loop. *)
Fixpoint try_addrs (e : env) (iface : string) (addrs : list string)
    : option string * list event :=
  match addrs with
  | [] => (None, [])
  | a :: r =>
      if connect6 e a iface then (Some a, [Connect6 a iface])
      else let '(res, tr) := try_addrs e iface r in (res, Connect6 a iface :: tr)
  end.

(** The [for iface in interfaces] loop; a raising subprocess call
    continues with the next interface. *)
Fixpoint try_ifaces (e : env) (ifaces : list string)
    : option string * list event :=
  match ifaces with
  | [] => (None, [])
  | i :: r =>
      match neigh e i with
      | None => let '(res, tr) := try_ifaces e r in (res, Probe i :: tr)
      | Some addrs =>
          match try_addrs e i addrs with
          | (Some a, tr1) => (Some a, Probe i :: tr1)
          | (None, tr1) =>
              let '(res, tr) := try_ifaces e r in (res, Probe i :: tr1 ++ tr)
          end
      end
  end.

Definition candidate_iface (i : string) : bool :=
  negb (String.eqb i "lo") && negb (String.prefix "docker" i).

(** Method 3. *)
Definition try_ipv6 (e : env) : option string * list event :=
  match link_ifaces e with
  | None => (None, [])
  | Some ifs => try_ifaces e (filter candidate_iface ifs)
  end.

(** [discover_fpga_address(hardcoded_ip, hostname_hint, timeout)]:
    the address found (or [None]) and the attempts made. *)
Definition discover_fpga_address (e : env) (hardcoded_ip : string)
    (hostname_hint : option string) : option string * list event :=
  match try_hostnames e (hostnames_to_try hostname_hint) with
  | (Some ip, tr1) => (Some ip, tr1)
  | (None, tr1) =>
      if connect4 e hardcoded_ip then (Some hardcoded_ip, tr1 ++ [Connect hardcoded_ip])
      else let '(res, tr3) := try_ipv6 e in
           (res, tr1 ++ Connect hardcoded_ip :: tr3)
  end.

(** Method 1 fails: no candidate hostname both resolves and connects. *)
Definition hostnames_fail (e : env) (hs : list string) : Prop :=
  forall h ip, In h hs -> resolve e h = Some ip -> connect4 e ip = false.

(** Method 3 fails: no scoped connect to a discovered neighbour succeeds. *)
Definition ipv6_fails (e : env) : Prop :=
  match link_ifaces e with
  | None => True
  | Some ifs =>
      forall i addrs a, In i (filter candidate_iface ifs) ->
        neigh e i = Some addrs -> In a addrs -> connect6 e a i = false
  end.

Definition is_hostname_event (ev : event) : bool :=
  match ev with Resolve _ => true | Connect _ => true | _ => false end.

End Discover.

(* ------------------------------------------------------------------ *)
(** ** rcal.py : run_gpiozero *)

Module RcalRun.
Import Rcal.

(** The recursion of [run_gpiozero(num, t)], with [fuel] bounding the
    number of frames; [Some 0] is the [return 0] of the [num == 8] branch,
    [None] the implicit [None] for [num > 8].  Python's recursion limit is
    not modelled (the properties take [0 <= num]).  [S (8 - num)] frames
    reach the [num == 8] frame from any [num <= 8], and one frame settles
    [num > 8]. *)
Fixpoint run_fuel (fuel : nat) (num t : Z) (s : gpio_state) : option Z * gpio_state :=
  match fuel with
  | O => (None, s)
  | S f =>
      if num <? 8 then run_fuel f (num + 1) t (snd (gpio_switch num t s))
      else if num =? 8 then (Some 0, snd (gpio_switch 0 t s))
      else (None, s)
  end.

Definition run_gpiozero (num t : Z) (s : gpio_state) : option Z * gpio_state :=
  run_fuel (S (Z.to_nat (8 - num))) num t s.

End RcalRun.

(* ------------------------------------------------------------------ *)
(** ** main : the acquisition schedule *)

Module MainLoop.

(** What [main] does to the switch and the store: [Switch n] is
    [rcal.gpio_switch(n, SWITCH_DELAY)], [Save n] one
    [save_all_data(fpga, switch_value=n)], [EndCycle] the
    [cycle_count += 1]. *)
Inductive step := Switch (n : Z) | Save (n : Z) | EndCycle.

(** The body of the [for s in range(1,8)] loop. *)
Definition cal_state_steps (CAL_ACC_N FB_N : nat) (s : Z) : list step :=
  let spectra_n := if s =? 2 then (CAL_ACC_N + FB_N)%nat else CAL_ACC_N in
  Switch s :: repeat (Save s) spectra_n.

(** One iteration of the sweep ([input_state is None]). *)
Definition sweep_cycle (CAL_ACC_N FB_N ANT_ACC_N : nat) : list step :=
  flat_map (cal_state_steps CAL_ACC_N FB_N) [1; 2; 3; 4; 5; 6; 7] ++
  (Switch 0 :: repeat (Save 0) ANT_ACC_N) ++ [EndCycle].


Definition is_save (st : step) : bool :=
  match st with Save _ => true | _ => false end.

(** The state of the last [Switch] before each [Save], paired with the
    switch value the [Save] records ([None] before any switch). *)
Fixpoint saves_with_state (cur : option Z) (steps : list step)
    : list (option Z * Z) :=
  match steps with
  | [] => []
  | Switch n :: r => saves_with_state (Some n) r
  | Save n :: r => (cur, n) :: saves_with_state cur r
  | EndCycle :: r => saves_with_state cur r
  end.

End MainLoop.

(* ------------------------------------------------------------------ *)
(** ** initialize_fpga : the discovery retries and the fatal path *)

Module InitFpga.

Inductive init_event :=
| GpioSwitch (n t : Z)
| DiscoverCall
| Sleep (secs : Z)
| Reboot.

Definition max_retries : nat := 5.
Definition retry_delay : Z := 5.

(** Python truthiness of [fpga_addr]. *)
Definition truthy (a : option string) : bool :=
  match a with Some s => negb (String.eqb s "") | None => false end.

(** [for attempt in range(max_retries)]: [discover k] is the value the
    [k]-th [discover_fpga_address()] call returns.  Yields the final
    [fpga_addr] and the events. *)
Fixpoint retry (discover : nat -> option string) (n attempt : nat)
    : option string * list init_event :=
  match n with
  | O => (None, [])
  | S n' =>
      let fpga_addr := discover attempt in
      if truthy fpga_addr then (fpga_addr, [DiscoverCall])
      else
        let sl := if Nat.ltb attempt (max_retries - 1) then [Sleep retry_delay] else [] in
        match n' with
        | O => (fpga_addr, DiscoverCall :: sl)
        | _ => let '(a, tr) := retry discover n' (S attempt) in
               (a, DiscoverCall :: sl ++ tr)
        end
  end.

(** [initialize_fpga] up to the bring-up [try]: the switch to state 0, the
    discovery retries, and the fatal path ([time.sleep(180)],
    [os.system('sudo reboot')]) when no address was found. *)
Definition init_discovery (discover : nat -> option string)
    : option string * list init_event :=
  let '(fpga_addr, tr) := retry discover max_retries 0 in
  (fpga_addr,
   GpioSwitch 0 2 :: tr ++ (if truthy fpga_addr then [] else [Sleep 180; Reboot])).

End InitFpga.

(* ------------------------------------------------------------------ *)
(** ** The sequence of saves driven by main *)

Module SessionRun.
Import Session.

(** A save ([save_data] reached through [save_all_data]) at clock time
    [hms] with record name [fn], or the end of a cycle. *)
Inductive action := ASave (hms fn : string) | AEndCycle.

(** Running the actions in order; the first error stops the process. *)
Fixpoint run_actions (SAVE_DATA : bool) (run_directory : option string)
    (acts : list action) (f : fs) (st : session) : result (fs * session) :=
  match acts with
  | [] => Ok (f, st)
  | ASave hms fn :: r =>
      match save_data SAVE_DATA run_directory hms f st fn with
      | Err e => Err e
      | Ok (f', st') => run_actions SAVE_DATA run_directory r f' st'
      end
  | AEndCycle :: r => run_actions SAVE_DATA run_directory r f (end_cycle st)
  end.

End SessionRun.

(* ================================================================== *)
(** * Properties *)

(* ------------------------------------------------------------------ *)
(** ** The calibration switch *)

Module RcalProofs.
Import Rcal.

Definition gpio0 : gpio_state := mk_gpio false false false [].

Lemma in_range_cases (n : Z) :
  0 <= n <= 7 ->
  n = 0 \/ n = 1 \/ n = 2 \/ n = 3 \/ n = 4 \/ n = 5 \/ n = 6 \/ n = 7.
Proof. intros; lia. Qed.

Ltac by_state H :=
  destruct (in_range_cases _ H) as [->|[->|[->|[->|[->|[->|[->| ->]]]]]]].

(** C9: for a state [n] in 0..7, [gpio_switch] sets line A, B, C from
    bits 0, 1, 2 of [idx = 7 - n] and sleeps [t]; the map from state to
    the three line levels is injective and onto the 8 patterns; state 0
    gives (on, on, on) and state 7 gives (off, off, off). *)
Theorem gpio_switch_state_encoding (n t : Z) (s : gpio_state)
    (Hn : 0 <= n <= 7) :
  gpio_switch n t s =
    (None, mk_gpio (Z.testbit (7 - n) 0) (Z.testbit (7 - n) 1)
                   (Z.testbit (7 - n) 2) (sleeps s ++ [t]))
  /\ (forall m, 0 <= m <= 7 -> switch_lines m t s = switch_lines n t s -> m = n)
  /\ (forall a b c, exists m, 0 <= m <= 7 /\ switch_lines m t s = (a, b, c))
  /\ switch_lines 0 t s = (true, true, true)
  /\ switch_lines 7 t s = (false, false, false).
Proof.
  split; [|split; [|split; [|split]]].
  - by_state Hn; reflexivity.
  - intros m Hm H. by_state Hm; by_state Hn;
    unfold switch_lines, lines, gpio_switch, drive in H; simpl in H; congruence.
  - intros [|] [|] [|].
    + exists 0; split; [lia | reflexivity].
    + exists 4; split; [lia | reflexivity].
    + exists 2; split; [lia | reflexivity].
    + exists 6; split; [lia | reflexivity].
    + exists 1; split; [lia | reflexivity].
    + exists 5; split; [lia | reflexivity].
    + exists 3; split; [lia | reflexivity].
    + exists 7; split; [lia | reflexivity].
  - reflexivity.
  - reflexivity.
Qed.

Lemma gpio_switch_state_encoding_witness :
  0 <= 3 <= 7 /\
  gpio_switch 3 1 gpio0 =
    (None, mk_gpio (Z.testbit (7 - 3) 0) (Z.testbit (7 - 3) 1)
                   (Z.testbit (7 - 3) 2) (sleeps gpio0 ++ [1])).
Proof.
  split; [lia|].
  apply (gpio_switch_state_encoding 3 1 gpio0); lia.
Defined.

(** C10: for an integer [n] outside 0..7 other than 10, [gpio_switch]
    returns the error message and leaves the lines and the sleeps
    untouched; [n = 10] passes the guard and drives the lines from
    [idx = -3] (two's complement): A on, B off, C on, then sleeps. *)
Theorem gpio_switch_out_of_range (n t : Z) (s : gpio_state)
    (Hn : (n < 0 \/ 7 < n) /\ n <> 10) :
  gpio_switch n t s = (Some invalid_msg, s)
  /\ 7 - 10 = -3
  /\ gpio_switch 10 t s = (None, mk_gpio true false true (sleeps s ++ [t])).
Proof.
  split; [|split; [reflexivity|reflexivity]].
  unfold gpio_switch.
  replace (((n <? 0) || (7 <? n)) && negb (n =? 10))%bool with true; [reflexivity|].
  symmetry. apply andb_true_intro. split.
  - apply orb_true_intro. destruct Hn as [[H|H] _]; [left|right]; lia.
  - apply negb_true_iff, Z.eqb_neq. tauto.
Qed.

Lemma gpio_switch_out_of_range_witness :
  ((-1 < 0 \/ 7 < -1) /\ -1 <> 10) /\
  gpio_switch (-1) 2 gpio0 = (Some invalid_msg, gpio0).
Proof.
  assert (H : (-1 < 0 \/ 7 < -1) /\ -1 <> 10) by lia.
  split; [exact H|].
  apply (gpio_switch_out_of_range (-1) 2 gpio0 H).
Defined.

End RcalProofs.

(* ------------------------------------------------------------------ *)
(** ** Deinterleaving *)

Module VaccProofs.
Import Vacc.

Lemma map_seq_shift {A : Type} (f : nat -> A) (s n : nat) :
  map f (seq s n) = map (fun j => f (s + j)%nat) (seq 0 n).
Proof.
  revert f s. induction n as [|n IH]; intros f s; [reflexivity|].
  simpl. rewrite Nat.add_0_r. f_equal.
  rewrite IH, (IH (fun j => f (s + j)%nat) 1%nat). apply map_ext.
  intros j. f_equal. lia.
Qed.

Lemma block_div_mod (C M j : nat) :
  (j < C)%nat -> ((C * M + j) / C = M /\ (C * M + j) mod C = j)%nat.
Proof.
  intros Hj. split.
  - symmetry. apply Nat.div_unique with j; lia.
  - symmetry. apply Nat.mod_unique with M; lia.
Qed.

(** The double loop, read as one pass over the flat indices. *)
Lemma interleave_as_map {A : Type} (d : A) (C M : nat) (rows : list (list A)) :
  (0 < C)%nat ->
  interleave d C M rows =
    map (fun i => nth (i / C) (nth (i mod C) rows []) d) (seq 0 (C * M)).
Proof.
  intros HC. unfold interleave. induction M as [|M IH].
  - rewrite Nat.mul_0_r. reflexivity.
  - rewrite seq_S, flat_map_app, IH. simpl. rewrite app_nil_r.
    replace (C * S M)%nat with (C * M + C)%nat by lia.
    rewrite seq_app, map_app. f_equal.
    rewrite (map_seq_shift _ (0 + C * M)). apply map_ext_in.
    intros j Hj. apply in_seq in Hj.
    rewrite Nat.add_0_l.
    destruct (block_div_mod C M j) as [-> ->]; [lia|]. reflexivity.
Qed.

Lemma nth_map_seq {A : Type} (f : nat -> A) (n k : nat) (d : A) :
  (k < n)%nat -> nth k (map f (seq 0 n)) d = f k.
Proof.
  intros Hk. rewrite nth_indep with (d' := f 0%nat)
    by (rewrite length_map, length_seq; exact Hk).
  rewrite map_nth, seq_nth by exact Hk. reflexivity.
Qed.

Lemma decode_channels_spec (M : nat) read (idxs : list nat) rows :
  decode_channels M read idxs = Some rows ->
  List.length rows = List.length idxs /\
  forall k, (k < List.length idxs)%nat ->
    unpack_be_u64 M (read (reg_name (nth k idxs 0%nat)) (M * 8)%nat)
      = Some (nth k rows []).
Proof.
  revert rows. induction idxs as [|i r IH]; intros rows H; simpl in H.
  - injection H as <-. split; [reflexivity|]. intros k Hk. simpl in Hk. lia.
  - destruct (unpack_be_u64 M (read (reg_name i) (M * 8)%nat)) as [row|] eqn:Hu;
      [|discriminate].
    destruct (decode_channels M read r) as [rows'|] eqn:Hd; [|discriminate].
    simpl in H. injection H as <-.
    destruct (IH rows' eq_refl) as [Hl Hk].
    split; [simpl; congruence|].
    intros [|k] Hk'; [exact Hu|]. apply Hk. simpl in Hk'. lia.
Qed.

(** C1: whenever [get_vacc_data] returns a spectrum, with
    [M = NFFT/2/NCHANNELS] samples per channel, it has [C * M] samples and
    sample [i] is element [i / C] of the array decoded from the memory of
    channel [i mod C]; when channel [c] decodes to [c*1000 + j] at offset
    [j], the spectrum is [0, 1000, ..., (C-1)*1000, 1, 1001, ...]. *)
Theorem get_vacc_data_interleaves (C NFFT : nat)
    (read : string -> nat -> list Byte.byte) (acc : Z) (sp : list Z) (cnt : Z)
    (H : get_vacc_data C NFFT read acc = Some (sp, cnt)) :
  let M := (NFFT / 2 / C)%nat in
  cnt = acc /\ (0 < C)%nat /\
  exists channel_data : list (list Z),
    List.length channel_data = C /\
    (forall c, (c < C)%nat ->
       unpack_be_u64 M (read (reg_name c) (M * 8)%nat) = Some (nth c channel_data [])) /\
    List.length sp = (C * M)%nat /\
    (forall i, (i < C * M)%nat ->
       nth i sp 0 = nth (i / C) (nth (i mod C) channel_data []) 0) /\
    ((forall c, (c < C)%nat ->
        nth c channel_data [] = map (fun j => Z.of_nat c * 1000 + Z.of_nat j) (seq 0 M)) ->
     sp = map (fun i => Z.of_nat (i mod C) * 1000 + Z.of_nat (i / C)) (seq 0 (C * M))).
Proof.
  intros M. unfold get_vacc_data in H.
  destruct (Nat.eqb_spec C 0) as [|HC]; [discriminate|].
  fold M in H.
  destruct (decode_channels M read (seq 0 C)) as [rows|] eqn:Hd; [|discriminate].
  injection H as <- <-.
  destruct (decode_channels_spec M read (seq 0 C) rows Hd) as [Hl Hk].
  rewrite length_seq in Hl, Hk.
  split; [reflexivity|]. split; [lia|].
  exists rows. split; [exact Hl|]. split.
  { intros c Hc. specialize (Hk c Hc). rewrite seq_nth in Hk by exact Hc. exact Hk. }
  rewrite interleave_as_map by lia.
  split; [rewrite length_map, length_seq; reflexivity|]. split.
  - intros i Hi. rewrite nth_map_seq by exact Hi. reflexivity.
  - intros Hsyn. apply map_ext_in. intros i Hi. apply in_seq in Hi.
    assert (Hm : (i mod C < C)%nat) by (apply Nat.mod_upper_bound; exact HC).
    assert (Hdv : (i / C < M)%nat) by (apply Nat.Div0.div_lt_upper_bound; lia).
    rewrite (Hsyn _ Hm), nth_map_seq by exact Hdv. reflexivity.
Qed.

(** Two channels of two samples each, holding [c*1000 + j]. *)
Definition synthetic_read (name : string) (_ : nat) : list Byte.byte :=
  if String.eqb name "q1" then encode_channel [0; 1]
  else encode_channel [1000; 1001].

Lemma get_vacc_data_interleaves_witness :
  get_vacc_data 2 8 synthetic_read 9 = Some ([0; 1000; 1; 1001], 9) /\
  nth 3 [0; 1000; 1; 1001] 0 = 1001.
Proof.
  assert (H : get_vacc_data 2 8 synthetic_read 9 = Some ([0; 1000; 1; 1001], 9))
    by reflexivity.
  split; [exact H|].
  destruct (get_vacc_data_interleaves 2 8 synthetic_read 9 _ _ H)
    as [_ [_ [rows [_ [Hrows [_ [Hi _]]]]]]].
  rewrite (Hi 3%nat) by (vm_compute; lia).
  specialize (Hrows 1%nat ltac:(lia)). vm_compute in Hrows.
  injection Hrows as Hr. vm_compute. rewrite <- Hr. reflexivity.
Defined.

End VaccProofs.

(* ------------------------------------------------------------------ *)
(** ** Waiting for a new accumulation *)

Module AccCntProofs.
Import AccCnt.

(** Reads of a counter that never decreases. *)
Definition nondecreasing (reads : list Z) : Prop :=
  forall i j, (i <= j < List.length reads)%nat -> nth i reads 0 <= nth j reads 0.

Lemma poll_spec (rest : list Z) (last acc : Z) (c : nat) (n : Z) (c' : nat) :
  poll rest last acc c = Some (n, c') ->
  exists k, c' = (c + k)%nat /\ (k < S (List.length rest))%nat /\
    nth k (acc :: rest) 0 = n /\ n <> last /\
    (forall j, (j < k)%nat -> nth j (acc :: rest) 0 = last).
Proof.
  revert acc c. induction rest as [|a r IH]; intros acc c H; simpl in H.
  - destruct (Z.eqb_spec acc last); [discriminate|].
    injection H as <- <-. exists 0%nat.
    split; [lia|]. split; [lia|]. split; [reflexivity|]. split; [assumption|].
    intros j Hj; lia.
  - destruct (Z.eqb_spec acc last) as [Heq|Hne].
    + destruct (IH a (S c) H) as [k [Hc [Hk [Hn [Hnl Hb]]]]].
      exists (S k). split; [lia|]. split; [simpl in *; lia|].
      split; [exact Hn|]. split; [exact Hnl|].
      intros [|j] Hj; [exact Heq|]. apply Hb. lia.
    + injection H as <- <-. exists 0%nat.
      split; [lia|]. split; [lia|]. split; [reflexivity|]. split; [assumption|].
      intros j Hj; lia.
Qed.

(** C2 (as the code behaves): [get_acc_cnt] returns the first counter
    read that differs from the baseline (the first read if it exceeds
    [lastSeen], else [lastSeen]), with the number of reads performed,
    the first included; when the first read is at least [lastSeen] and the
    counter never decreases, the returned count is strictly greater than
    the baseline.  For the reads [5,5,5,7] and [lastSeen = 5] the result
    is [(7, 4)]. *)
Theorem get_acc_cnt_first_change (reads : list Z) (last_acc_n n : Z) (c : nat)
    (H : get_acc_cnt reads last_acc_n = Some (n, c)) :
  let baseline := if hd 0 reads >? last_acc_n then hd 0 reads else last_acc_n in
  (1 <= c <= List.length reads)%nat /\
  nth (c - 1) reads 0 = n /\ n <> baseline /\
  (forall j, (j < c - 1)%nat -> nth j reads 0 = baseline) /\
  (last_acc_n <= hd 0 reads -> nondecreasing reads -> baseline < n) /\
  get_acc_cnt [5; 5; 5; 7] 5 = Some (7, 4%nat).
Proof.
  intros baseline. destruct reads as [|r0 rest]; [discriminate|].
  unfold get_acc_cnt in H. simpl in baseline.
  destruct (poll_spec rest _ r0 1 n c H) as [k [Hc [Hk [Hn [Hnl Hb]]]]].
  fold baseline in Hnl, Hb.
  subst c. replace (1 + k - 1)%nat with k by lia.
  split; [simpl; lia|]. split; [exact Hn|]. split; [exact Hnl|]. split; [exact Hb|].
  split; [|reflexivity].
  intros Hle Hmono. simpl in Hle.
  assert (Hbase : baseline = r0).
  { unfold baseline. destruct (Z.gtb_spec r0 last_acc_n); lia. }
  assert (Hr : nth 0 (r0 :: rest) 0 <= nth k (r0 :: rest) 0)
    by (apply Hmono; simpl; lia).
  rewrite Hn in Hr. simpl in Hr. rewrite Hbase in Hnl |- *. lia.
Qed.

Lemma get_acc_cnt_first_change_witness :
  get_acc_cnt [5; 5; 5; 7] 5 = Some (7, 4%nat) /\ 5 < 7.
Proof.
  assert (H : get_acc_cnt [5; 5; 5; 7] 5 = Some (7, 4%nat)) by reflexivity.
  split; [exact H|].
  destruct (get_acc_cnt_first_change [5; 5; 5; 7] 5 7 4 H)
    as [_ [_ [_ [_ [Hgt _]]]]].
  apply Hgt; [simpl; lia|].
  intros i j Hij. simpl in Hij.
  destruct i as [|[|[|[|i]]]]; destruct j as [|[|[|[|j]]]]; simpl; lia.
Defined.

(** C2 counterexample: a first read below [lastSeen] (the counter went
    back) is returned at once: for the reads [[3]] and [lastSeen = 5] the
    result is [(3, 1)], and 3 is not greater than the baseline 5. *)
Lemma get_acc_cnt_not_greater :
  get_acc_cnt [3] 5 = Some (3, 1%nat) /\
  (if 3 >? 5 then 3 else 5) = 5 /\ ~ (5 < 3).
Proof. split; [reflexivity|]. split; [reflexivity|lia]. Qed.

End AccCntProofs.

(* ------------------------------------------------------------------ *)
(** ** Session bookkeeping of save_data *)

Module SessionProofs.
Import Session.
Local Open Scope string_scope.

(** The condition [cycle_count >= 1 or current_sub_dir_path is None]
    under which [save_data] opens a subdirectory. *)
Definition new_sub_dir_due (st : session) : bool :=
  Z.leb 1 (cycle_count st) ||
  match current_sub_dir_path st with None => true | Some _ => false end.

Definition parent_dir_name (run_directory : option string) (filename : string)
    : string :=
  match run_directory with Some r => r | None => first_token filename end.

Lemma get_sub_directory_spec (p : string) (cnt : Z) (hms : string) (f : fs) :
  let '(sub, cnt', f') := get_sub_directory p cnt hms f in
  sub = join p hms /\ (cnt' = cnt \/ cnt' = cnt + 1)%Z /\
  drive_sessions f' = drive_sessions f.
Proof.
  unfold get_sub_directory. destruct (path_exists (join p hms) f); simpl; auto.
Qed.

(** What an enabled [save_data] does to the session and where it writes. *)
Lemma save_data_enabled_spec (rd : option string) (hms : string) (f : fs)
    (st : session) (fn : string) (f' : fs) (st' : session) :
  save_data true rd hms f st fn = Ok (f', st') ->
  exists dirname,
    py_last (drive_sessions f) = Some dirname /\
    let parent_path := join (join BASE_PATH dirname) (parent_dir_name rd fn) in
    (new_sub_dir_due st = true ->
       cycle_count st' = 0%Z /\
       current_parent_dir st' = Some (parent_dir_name rd fn) /\
       current_sub_dir_path st' = Some (join parent_path hms) /\
       (sub_dir_count st' = sub_dir_count st \/
        sub_dir_count st' = sub_dir_count st + 1)%Z) /\
    (new_sub_dir_due st = false -> st' = st) /\
    new_sub_dir_due st' = false /\
    exists sub, current_sub_dir_path st' = Some sub /\
                In (join sub (fn ++ ".npy")) (files f').
Proof.
  intros H. unfold save_data in H. simpl in H.
  destruct (py_last (drive_sessions f)) as [dirname|] eqn:Hl; [|discriminate].
  exists dirname. split; [reflexivity|].
  fold (parent_dir_name rd fn) in H.
  set (pp := join (join BASE_PATH dirname) (parent_dir_name rd fn)) in *.
  destruct (if in_listdir (join BASE_PATH dirname) (parent_dir_name rd fn) f
            then Ok f else mkdir pp f) as [f1|e]; [|discriminate].
  fold (new_sub_dir_due st) in H.
  destruct (new_sub_dir_due st) eqn:Hdue.
  - pose proof (get_sub_directory_spec pp (sub_dir_count st) hms f1) as Hg.
    destruct (get_sub_directory pp (sub_dir_count st) hms f1) as [[sub cnt'] f2].
    destruct Hg as [-> [Hc _]].
    injection H as <- <-. simpl.
    split; [intros _; auto|]. split; [discriminate|]. split; [reflexivity|].
    eexists; split; [reflexivity|].
    unfold np_save. simpl. apply in_or_app. right. left. reflexivity.
  - injection H as <- <-.
    split; [discriminate|]. split; [reflexivity|]. split; [exact Hdue|].
    unfold new_sub_dir_due in Hdue.
    destruct (current_sub_dir_path st) as [sub|]; [|rewrite orb_true_r in Hdue; discriminate].
    eexists; split; [reflexivity|].
    unfold np_save. simpl. apply in_or_app. right. left. reflexivity.
Qed.

(** A mounted drive whose listing holds one drive session. *)
Definition one_drive : fs := mk_fs ["INDURANCE"] [] [].

(** C3 counterexample: from the initial session, an enabled save opens
    the first subdirectory (counter 1, path set) while a disabled save
    leaves the session as it was. *)
Lemma save_data_flag_changes_session :
  save_data true None "120000" one_drive init_session
    "20251103_120000_antenna1_state1" =
    Ok (mk_fs ["INDURANCE"]
          ["/media/peterson/INDURANCE/20251103";
           "/media/peterson/INDURANCE/20251103/120000"]
          ["/media/peterson/INDURANCE/20251103/120000/20251103_120000_antenna1_state1.npy"],
        mk_session 0 1 (Some "20251103")
          (Some "/media/peterson/INDURANCE/20251103/120000")) /\
  save_data false None "120000" one_drive init_session
    "20251103_120000_antenna1_state1" = Ok (one_drive, init_session) /\
  mk_session 0 1 (Some "20251103")
    (Some "/media/peterson/INDURANCE/20251103/120000") <> init_session.
Proof.
  split; [reflexivity|]. split; [reflexivity|]. discriminate.
Qed.

(** C3 (as the code behaves): a save with saving disabled returns at once
    and changes neither the session bookkeeping nor the storage; only an
    enabled save makes the cycle/subdirectory transition (at a pending
    boundary it resets the cycle counter to 0 and sets the current
    subdirectory), so the session after a save depends on the flag. *)
Theorem save_data_disabled_is_noop (rd : option string) (hms : string) (f : fs)
    (st : session) (fn : string) :
  save_data false rd hms f st fn = Ok (f, st) /\
  forall f' st',
    save_data true rd hms f st fn = Ok (f', st') ->
    new_sub_dir_due st = true ->
    cycle_count st' = 0%Z /\ current_sub_dir_path st' <> None.
Proof.
  split; [reflexivity|].
  intros f' st' H Hdue.
  destruct (save_data_enabled_spec rd hms f st fn f' st' H)
    as [dirname [_ [Hb _]]].
  destruct (Hb Hdue) as [Hc [_ [Hp _]]]. rewrite Hp. split; [exact Hc|discriminate].
Qed.

(** C4 (as the code behaves): an enabled save switches to the
    subdirectory named by the current [HHMMSS] time under the parent
    exactly when a boundary is due (cycle counter at least 1, or no
    subdirectory yet), resetting the cycle counter; the directory is
    created only if it does not exist yet, so the subdirectory counter
    grows by 0 or 1.  Otherwise the session is unchanged.  After any
    enabled save no boundary is due, so the next save without a new cycle
    writes into the same subdirectory. *)
Theorem save_data_subdirectory_choice (rd : option string) (hms : string)
    (f : fs) (st : session) (fn : string) (f' : fs) (st' : session)
    (H : save_data true rd hms f st fn = Ok (f', st')) :
  exists dirname,
    py_last (drive_sessions f) = Some dirname /\
    let parent_path := join (join BASE_PATH dirname) (parent_dir_name rd fn) in
    (new_sub_dir_due st = true ->
       cycle_count st' = 0%Z /\
       current_sub_dir_path st' = Some (join parent_path hms) /\
       (sub_dir_count st' = sub_dir_count st \/
        sub_dir_count st' = sub_dir_count st + 1)%Z) /\
    (new_sub_dir_due st = false -> st' = st) /\
    new_sub_dir_due st' = false /\
    exists sub, current_sub_dir_path st' = Some sub /\
                In (join sub (fn ++ ".npy")) (files f').
Proof.
  destruct (save_data_enabled_spec rd hms f st fn f' st' H)
    as [dirname [Hl [Hb [Hn [Hd Hw]]]]].
  exists dirname. split; [exact Hl|]. split; [|split; [exact Hn|split; [exact Hd|exact Hw]]].
  intros Hdue. destruct (Hb Hdue) as [Hc [_ [Hp Hs]]]. auto.
Qed.

Lemma save_data_subdirectory_choice_witness :
  save_data true None "120000" one_drive init_session
    "20251103_120000_antenna1_state1" =
    Ok (mk_fs ["INDURANCE"]
          ["/media/peterson/INDURANCE/20251103";
           "/media/peterson/INDURANCE/20251103/120000"]
          ["/media/peterson/INDURANCE/20251103/120000/20251103_120000_antenna1_state1.npy"],
        mk_session 0 1 (Some "20251103")
          (Some "/media/peterson/INDURANCE/20251103/120000")) /\
  exists d, py_last (drive_sessions one_drive) = Some d.
Proof.
  assert (H : save_data true None "120000" one_drive init_session
    "20251103_120000_antenna1_state1" =
    Ok (mk_fs ["INDURANCE"]
          ["/media/peterson/INDURANCE/20251103";
           "/media/peterson/INDURANCE/20251103/120000"]
          ["/media/peterson/INDURANCE/20251103/120000/20251103_120000_antenna1_state1.npy"],
        mk_session 0 1 (Some "20251103")
          (Some "/media/peterson/INDURANCE/20251103/120000"))) by reflexivity.
  split; [exact H|].
  destruct (save_data_subdirectory_choice _ _ _ _ _ _ _ H) as [d [Hl _]].
  exists d. exact Hl.
Defined.

(** A fixed run directory and a drive where [run1/120000] exists from an
    earlier day. *)
Definition drive_with_run : fs :=
  mk_fs ["INDURANCE"]
    ["/media/peterson/INDURANCE/run1"; "/media/peterson/INDURANCE/run1/120000"] [].

Definition run1_session : session :=
  mk_session 0 1 (Some "run1") (Some "/media/peterson/INDURANCE/run1/110000").

(** C4 counterexample: at a cycle boundary, the save at 12:00:00 does not
    get a fresh subdirectory: [run1/120000] already exists (same clock
    time, earlier day), so it is reused without being created and the
    subdirectory counter stays at 1; a second boundary within the same
    second likewise stays in the same subdirectory. *)
Lemma save_data_boundary_reuses_existing :
  save_data true (Some "run1") "120000" drive_with_run (end_cycle run1_session)
    "20251104_120000_antenna1_state1" =
    Ok (mk_fs ["INDURANCE"]
          ["/media/peterson/INDURANCE/run1"; "/media/peterson/INDURANCE/run1/120000"]
          ["/media/peterson/INDURANCE/run1/120000/20251104_120000_antenna1_state1.npy"],
        mk_session 0 1 (Some "run1") (Some "/media/peterson/INDURANCE/run1/120000")) /\
  save_data true (Some "run1") "120000" drive_with_run
    (end_cycle (mk_session 0 1 (Some "run1") (Some "/media/peterson/INDURANCE/run1/120000")))
    "20251104_120000_antenna1_state2" =
    Ok (mk_fs ["INDURANCE"]
          ["/media/peterson/INDURANCE/run1"; "/media/peterson/INDURANCE/run1/120000"]
          ["/media/peterson/INDURANCE/run1/120000/20251104_120000_antenna1_state2.npy"],
        mk_session 0 1 (Some "run1") (Some "/media/peterson/INDURANCE/run1/120000")).
Proof. split; reflexivity. Qed.

(** A drive whose listing order puts the newer session first. *)
Definition two_drives : fs := mk_fs ["INDURANCE"; "BACKUP"] [] [].

(** C7: the drive session used is the last entry of the directory
    listing ([dirnames[-1]]), not the lexicographically last one: with
    the listing [INDURANCE, BACKUP] the record goes below [BACKUP] although
    [INDURANCE] is the lexicographic maximum. *)
Theorem save_data_picks_listing_last :
  save_data true None "120000" two_drives init_session
    "20251103_120000_antenna1_state1" =
    Ok (mk_fs ["INDURANCE"; "BACKUP"]
          ["/media/peterson/BACKUP/20251103";
           "/media/peterson/BACKUP/20251103/120000"]
          ["/media/peterson/BACKUP/20251103/120000/20251103_120000_antenna1_state1.npy"],
        mk_session 0 1 (Some "20251103")
          (Some "/media/peterson/BACKUP/20251103/120000")) /\
  String.ltb "BACKUP" "INDURANCE" = true.
Proof. split; reflexivity. Qed.

End SessionProofs.

(* ------------------------------------------------------------------ *)
(** ** Averaged save mode *)

Module AveragedProofs.
Import Averaged.

Section DictSet.
Context {A : Type}.

Lemma dict_set_In (k : Z) (v : A) (d : dict A) (k' : Z) (s : A) :
  In (k', s) (dict_set k v d) <-> (k' = k /\ s = v) \/ (k' <> k /\ In (k', s) d).
Proof.
  unfold dict_set. destruct (existsb (fun kv => fst kv =? k) d) eqn:He.
  - apply existsb_exists in He. destruct He as [[k0 v0] [Hin Hk0]].
    simpl in Hk0. apply Z.eqb_eq in Hk0. subst k0.
    rewrite in_map_iff. split.
    + intros [[k1 v1] [Hf Hin1]]. simpl in Hf.
      destruct (Z.eqb_spec k1 k); injection Hf as <- <-; [left|right]; auto.
    + intros [[-> ->]|[Hne Hin1]].
      * exists (k, v0). simpl. rewrite Z.eqb_refl. auto.
      * exists (k', s). simpl. apply Z.eqb_neq in Hne. rewrite Hne. auto.
  - rewrite in_app_iff. simpl. split.
    + intros [Hin|[Heq|[]]].
      * right. split; [|exact Hin]. intros ->.
        assert (Hx : existsb (fun kv => fst kv =? k) d = true)
          by (apply existsb_exists; exists (k, s); simpl; rewrite Z.eqb_refl; auto).
        congruence.
      * injection Heq as <- <-. left. auto.
    + intros [[-> ->]|[_ Hin]]; [right; left; reflexivity|left; exact Hin].
Qed.

Lemma dict_set_keys (k : Z) (v : A) (d : dict A) :
  NoDup (map fst d) ->
  NoDup (map fst (dict_set k v d)) /\
  (List.length (dict_set k v d) = List.length d \/
   List.length (dict_set k v d) = S (List.length d)).
Proof.
  intros Hnd. unfold dict_set.
  destruct (existsb (fun kv => fst kv =? k) d) eqn:He.
  - rewrite map_map, length_map. split; [|left; reflexivity].
    replace (map (fun x => fst (if fst x =? k then (k, v) else x)) d)
      with (map fst d); [exact Hnd|].
    apply map_ext. intros [k1 v1]. simpl. destruct (Z.eqb_spec k1 k); auto.
  - rewrite map_app, length_app. simpl. split; [|right; lia].
    apply NoDup_app; [exact Hnd|constructor; [intros []|constructor]|].
    intros a Ha [<-|[]]. apply in_map_iff in Ha. destruct Ha as [[k1 v1] [Hk Hin]].
    simpl in Hk. subst k1.
    assert (Hx : existsb (fun kv => fst kv =? k) d = true)
      by (apply existsb_exists; exists (k, v1); simpl; rewrite Z.eqb_refl; auto).
    congruence.
Qed.
End DictSet.

Lemma collect_spec (acqs : list (Z * list Z)) (d d' : dict (list Z))
    (rest : list (Z * list Z)) :
  collect acqs d = Some (d', rest) ->
  NoDup (map fst d) -> (List.length d <= 3)%nat ->
  exists used, acqs = used ++ rest /\ List.length d' = 3%nat /\
    NoDup (map fst d') /\
    forall k s, In (k, s) d' <->
      (last_for k used = Some s \/ (last_for k used = None /\ In (k, s) d)).
Proof.
  revert d. induction acqs as [|[k0 s0] r IH]; intros d H Hnd Hlen; simpl in H.
  - destruct (Nat.ltb_spec (List.length d) 3); [discriminate|].
    injection H as <- <-. exists []. split; [reflexivity|]. split; [lia|].
    split; [exact Hnd|]. intros k s. simpl. split.
    + intros Hin. right. auto.
    + intros [Hs|[_ Hin]]; [discriminate|exact Hin].
  - destruct (Nat.ltb_spec (List.length d) 3) as [Hlt|Hge].
    + destruct (dict_set_keys k0 s0 d Hnd) as [Hnd1 Hlen1].
      destruct (IH _ H Hnd1 ltac:(lia)) as [used [-> [Hl [Hn Hiff]]]].
      exists ((k0, s0) :: used). split; [reflexivity|]. split; [exact Hl|].
      split; [exact Hn|]. intros k s. rewrite Hiff, dict_set_In. simpl.
      destruct (last_for k used) as [s'|];
        [split; intros [H1|[H1 _]]; auto; discriminate|].
      destruct (Z.eqb_spec k0 k) as [<-|Hne]; split.
      * intros [Hs|[_ [[_ ->]|[Hne _]]]]; [discriminate|left; reflexivity|congruence].
      * intros [Hs|[Hs _]]; [|discriminate]. injection Hs as ->.
        right. split; [reflexivity|]. left. auto.
      * intros [Hs|[_ [[-> _]|[_ Hin]]]]; [discriminate|congruence|right; auto].
      * intros [Hs|[_ Hin]]; [discriminate|].
        right. split; [reflexivity|]. right. split; [congruence|exact Hin].
    + injection H as <- <-. exists []. split; [reflexivity|]. split; [lia|].
      split; [exact Hnd|]. intros k s. simpl. split.
      * intros Hin. right. auto.
      * intros [Hs|[_ Hin]]; [discriminate|exact Hin].
Qed.

(** C5 (as the code behaves): a record saved in averaged mode is the
    element-wise sum of exactly three spectra under three pairwise
    distinct accumulation ids; an acquisition under an id already present
    replaces that id's earlier spectrum (it is not dropped), so each id
    contributes the spectrum most recently acquired under it. *)
Theorem averaged_sum_three_distinct_ids (acqs : list (Z * list Z)) (sp : list Z)
    (H : averaged_spectrum acqs = Some sp) :
  exists spectra used rest,
    acqs = used ++ rest /\ List.length spectra = 3%nat /\
    NoDup (map fst spectra) /\
    (forall k s, In (k, s) spectra <-> last_for k used = Some s) /\
    sp = sum_spectrum (map snd spectra).
Proof.
  unfold averaged_spectrum in H.
  destruct (collect acqs []) as [[spectra rest]|] eqn:Hc; [|discriminate].
  injection H as <-.
  destruct (collect_spec acqs [] spectra rest Hc (NoDup_nil _) ltac:(simpl; lia))
    as [used [Hu [Hl [Hn Hiff]]]].
  exists spectra, used, rest. split; [exact Hu|]. split; [exact Hl|].
  split; [exact Hn|]. split; [|reflexivity].
  intros k s. rewrite Hiff. split; [intros [Hs|[_ []]]; exact Hs|left; exact H].
Qed.

(** Four acquisitions, the second re-reading accumulation 1. *)
Definition acqs_dup : list (Z * list Z) :=
  [(1, [10]); (1, [20]); (2, [30]); (3, [40])].

Lemma averaged_sum_three_distinct_ids_witness :
  averaged_spectrum acqs_dup = Some [90] /\
  exists (spectra : dict (list Z)) used rest, acqs_dup = used ++ rest /\
    List.length spectra = 3%nat /\ NoDup (map fst spectra).
Proof.
  assert (H : averaged_spectrum acqs_dup = Some [90]) by reflexivity.
  split; [exact H|].
  destruct (averaged_sum_three_distinct_ids acqs_dup [90] H)
    as [spectra [used [rest [Hu [Hl [Hn _]]]]]].
  exists spectra, used, rest. auto.
Defined.

(** C5 counterexample: the re-read of accumulation 1 is not rejected: the
    record sums [20 + 30 + 40 = 90], while summing the first spectrum seen
    under each id ([10], [30], [40]) gives 80. *)
Lemma averaged_reread_not_rejected :
  averaged_spectrum acqs_dup = Some [90] /\
  first_for 1 acqs_dup = Some [10] /\ first_for 2 acqs_dup = Some [30] /\
  first_for 3 acqs_dup = Some [40] /\
  sum_spectrum [[10]; [30]; [40]] = [80] /\ [90] <> [80].
Proof. repeat split; try reflexivity. discriminate. Qed.

End AveragedProofs.

(* ------------------------------------------------------------------ *)
(** ** Record file names *)

Module FilenameProofs.
Import Filename.
Local Open Scope string_scope.

Lemma string_app_assoc (a b c : string) : (a ++ b) ++ c = a ++ (b ++ c).
Proof. induction a as [|x a IH]; simpl; [reflexivity|rewrite IH; reflexivity]. Qed.

(** C6 (as the code behaves): the file name is
    [<timestamp>_antenna<id>_state<state>], followed by [_<count>] only in
    per-accumulation mode; in averaged mode no suffix is appended (the
    ['average'] argument is dropped because [SAVE_EACH_ACC] is false). *)
Theorem record_filename_shape (ANTENNA ts : string) (state cnt : Z) :
  record_filename true ANTENNA ts state cnt =
    ts ++ "_antenna" ++ ANTENNA ++ "_state" ++ Vacc.Z_to_string state
       ++ "_" ++ Vacc.Z_to_string cnt /\
  record_filename false ANTENNA ts state cnt =
    ts ++ "_antenna" ++ ANTENNA ++ "_state" ++ Vacc.Z_to_string state.
Proof.
  split; [|reflexivity].
  unfold record_filename, write_filename. rewrite !string_app_assoc. reflexivity.
Qed.

(** C6 counterexample: an averaged record of state 3 is named
    [20251103_120000_antenna1_state3], without the [average] marker. *)
Lemma averaged_filename_has_no_marker :
  record_filename false "1" "20251103_120000" 3 0 =
    "20251103_120000_antenna1_state3" /\
  record_filename false "1" "20251103_120000" 3 0 <>
    "20251103_120000_antenna1_state3_average".
Proof. split; [reflexivity|discriminate]. Qed.

End FilenameProofs.

(* ------------------------------------------------------------------ *)
(** ** The discovery fallback chain *)

Module DiscoverProofs.
Import Discover.

Definition is_ipv6_event (ev : event) : bool := negb (is_hostname_event ev).

Lemma try_hostnames_none (e : env) (hs : list string) :
  fst (try_hostnames e hs) = None <-> hostnames_fail e hs.
Proof.
  unfold hostnames_fail. induction hs as [|h r IH]; simpl.
  - split; [intros _ h ip []|reflexivity].
  - destruct (resolve e h) as [ip|] eqn:Hr.
    + destruct (connect4 e ip) eqn:Hc.
      * split; [discriminate|]. intros Hall.
        rewrite (Hall h ip (or_introl eq_refl) Hr) in Hc. discriminate.
      * destruct (try_hostnames e r) as [res tr] eqn:Ht. simpl in *.
        rewrite IH. split.
        -- intros Hall h' ip' [<-|Hin] Hr'; [congruence|]. exact (Hall h' ip' Hin Hr').
        -- intros Hall h' ip' Hin Hr'. exact (Hall h' ip' (or_intror Hin) Hr').
    + destruct (try_hostnames e r) as [res tr] eqn:Ht. simpl in *.
      rewrite IH. split.
      * intros Hall h' ip' [<-|Hin] Hr'; [congruence|]. exact (Hall h' ip' Hin Hr').
      * intros Hall h' ip' Hin Hr'. exact (Hall h' ip' (or_intror Hin) Hr').
Qed.

Lemma try_hostnames_events (e : env) (hs : list string) :
  forallb is_hostname_event (snd (try_hostnames e hs)) = true.
Proof.
  induction hs as [|h r IH]; simpl; [reflexivity|].
  destruct (resolve e h) as [ip|]; [destruct (connect4 e ip)|];
    try reflexivity; destruct (try_hostnames e r); simpl in *; rewrite IH; reflexivity.
Qed.

Lemma try_addrs_none (e : env) (i : string) (addrs : list string) :
  fst (try_addrs e i addrs) = None <-> forall a, In a addrs -> connect6 e a i = false.
Proof.
  induction addrs as [|a r IH]; simpl.
  - split; [intros _ a []|reflexivity].
  - destruct (connect6 e a i) eqn:Hc.
    + split; [discriminate|]. intros Hall. rewrite (Hall a (or_introl eq_refl)) in Hc.
      discriminate.
    + destruct (try_addrs e i r) as [res tr]. simpl in *. rewrite IH. split.
      * intros Hall a' [<-|Hin]; [exact Hc|exact (Hall a' Hin)].
      * intros Hall a' Hin. exact (Hall a' (or_intror Hin)).
Qed.

Lemma try_addrs_events (e : env) (i : string) (addrs : list string) :
  forallb is_ipv6_event (snd (try_addrs e i addrs)) = true.
Proof.
  induction addrs as [|a r IH]; simpl; [reflexivity|].
  destruct (connect6 e a i); [reflexivity|].
  destruct (try_addrs e i r); simpl in *; rewrite IH; reflexivity.
Qed.

Lemma try_ifaces_none (e : env) (ifs : list string) :
  fst (try_ifaces e ifs) = None <->
  forall i addrs a, In i ifs -> neigh e i = Some addrs -> In a addrs ->
    connect6 e a i = false.
Proof.
  induction ifs as [|i r IH]; simpl.
  - split; [intros _ i addrs a []|reflexivity].
  - destruct (neigh e i) as [addrs|] eqn:Hn.
    + pose proof (try_addrs_none e i addrs) as Ha.
      destruct (try_addrs e i addrs) as [[a|] tr1] eqn:Ht; simpl in Ha.
      * split; [discriminate|]. intros Hall. exfalso.
        assert (Hnone : forall a', In a' addrs -> connect6 e a' i = false)
          by (intros a' Hin; exact (Hall i addrs a' (or_introl eq_refl) Hn Hin)).
        apply Ha in Hnone. discriminate.
      * destruct (try_ifaces e r) as [res tr]. simpl in *. rewrite IH. split.
        -- intros Hall i' addrs' a' [<-|Hin] Hn' Ha'.
           ++ rewrite Hn in Hn'. injection Hn' as <-. apply Ha; auto.
           ++ exact (Hall i' addrs' a' Hin Hn' Ha').
        -- intros Hall i' addrs' a' Hin. exact (Hall i' addrs' a' (or_intror Hin)).
    + destruct (try_ifaces e r) as [res tr]. simpl in *. rewrite IH. split.
      * intros Hall i' addrs' a' [<-|Hin] Hn' Ha'; [congruence|].
        exact (Hall i' addrs' a' Hin Hn' Ha').
      * intros Hall i' addrs' a' Hin. exact (Hall i' addrs' a' (or_intror Hin)).
Qed.

Lemma try_ifaces_events (e : env) (ifs : list string) :
  forallb is_ipv6_event (snd (try_ifaces e ifs)) = true.
Proof.
  induction ifs as [|i r IH]; simpl; [reflexivity|].
  destruct (neigh e i) as [addrs|].
  - pose proof (try_addrs_events e i addrs) as Ha.
    destruct (try_addrs e i addrs) as [[a|] tr1]; simpl in *; [exact Ha|].
    destruct (try_ifaces e r); simpl in *. rewrite forallb_app, Ha, IH. reflexivity.
  - destruct (try_ifaces e r); simpl in *. exact IH.
Qed.

Lemma try_ipv6_none (e : env) :
  fst (try_ipv6 e) = None <-> ipv6_fails e.
Proof.
  unfold try_ipv6, ipv6_fails. destruct (link_ifaces e) as [ifs|].
  - apply try_ifaces_none.
  - split; reflexivity.
Qed.

Lemma try_ipv6_events (e : env) :
  forallb is_ipv6_event (snd (try_ipv6 e)) = true.
Proof.
  unfold try_ipv6. destruct (link_ifaces e); [apply try_ifaces_events|reflexivity].
Qed.

Definition fromkeys_step (acc : list string) (x : string) : list string :=
  if existsb (String.eqb x) acc then acc else acc ++ [x].

Lemma fold_fromkeys (l acc : list string) :
  NoDup l ->
  fold_left fromkeys_step l acc =
    acc ++ filter (fun x => negb (existsb (String.eqb x) acc)) l.
Proof.
  revert acc. induction l as [|x l IH]; intros acc Hnd; simpl.
  - rewrite app_nil_r. reflexivity.
  - inversion Hnd as [|? ? Hx Hl]; subst.
    unfold fromkeys_step at 2. destruct (existsb (String.eqb x) acc) eqn:He; simpl.
    + apply IH, Hl.
    + rewrite IH by exact Hl. rewrite <- app_assoc. simpl. f_equal. f_equal.
      apply filter_ext_in. intros y Hy.
      rewrite existsb_app. simpl.
      destruct (String.eqb_spec y x) as [->|Hne]; [contradiction|].
      rewrite orb_false_r. reflexivity.
Qed.

Lemma hostnames_to_try_spec (hint : option string) :
  hostnames_to_try hint =
    match hint with
    | Some h => if String.eqb h "" then fallback_hostnames
                else h :: filter (fun x => negb (String.eqb x h)) fallback_hostnames
    | None => fallback_hostnames
    end /\
  NoDup (hostnames_to_try hint).
Proof.
  assert (Hfb : NoDup fallback_hostnames).
  { repeat constructor; simpl; intuition discriminate. }
  assert (Hfk : dict_fromkeys fallback_hostnames = fallback_hostnames)
    by reflexivity.
  destruct hint as [h|]; unfold hostnames_to_try;
    [|rewrite app_nil_l, Hfk; split; [reflexivity|exact Hfb]].
  destruct (String.eqb_spec h "") as [->|Hne];
    [rewrite app_nil_l, Hfk; split; [reflexivity|exact Hfb]|].
  unfold dict_fromkeys. simpl app. cbn [fold_left].
  change (fold_left (fun acc x => if existsb (String.eqb x) acc then acc else acc ++ [x])
            fallback_hostnames (if existsb (String.eqb h) [] then [] else [] ++ [h]))
    with (fold_left fromkeys_step fallback_hostnames [h]).
  rewrite fold_fromkeys by exact Hfb.
  assert (Hf : filter (fun x => negb (existsb (String.eqb x) [h])) fallback_hostnames =
               filter (fun x => negb (String.eqb x h)) fallback_hostnames).
  { apply filter_ext. intros x. simpl. rewrite orb_false_r. reflexivity. }
  rewrite Hf. split; [reflexivity|].
  constructor.
  - rewrite filter_In. intros [_ Hx]. rewrite String.eqb_refl in Hx. discriminate.
  - apply NoDup_filter, Hfb.
Qed.

(** C8: [discover_fpga_address] tries the de-duplicated hostname
    candidates (the hint first, when given, then the fixed fallbacks not
    equal to it), then the hardcoded address, then IPv6 link-local
    discovery, returning the first success.  A hostname that resolves but
    does not connect does not stop the chain: when no candidate connects,
    the hardcoded connect is attempted after all hostname attempts and
    before any IPv6 attempt.  Failures are outcomes, never raised: the
    result is [None] exactly when all three methods fail. *)
Theorem discover_fallback_chain (e : env) (hardcoded_ip : string)
    (hostname_hint : option string) :
  let hs := hostnames_to_try hostname_hint in
  let '(res, tr) := discover_fpga_address e hardcoded_ip hostname_hint in
  NoDup hs /\
  hs = match hostname_hint with
       | Some h => if String.eqb h "" then fallback_hostnames
                   else h :: filter (fun x => negb (String.eqb x h)) fallback_hostnames
       | None => fallback_hostnames
       end /\
  res = match fst (try_hostnames e hs) with
        | Some ip => Some ip
        | None => if connect4 e hardcoded_ip then Some hardcoded_ip
                  else fst (try_ipv6 e)
        end /\
  (hostnames_fail e hs ->
     exists tr1 tr3, tr = tr1 ++ Connect hardcoded_ip :: tr3 /\
       forallb is_hostname_event tr1 = true /\
       forallb is_ipv6_event tr3 = true) /\
  (res = None <->
     hostnames_fail e hs /\ connect4 e hardcoded_ip = false /\ ipv6_fails e).
Proof.
  intros hs. destruct (hostnames_to_try_spec hostname_hint) as [Heq Hnd].
  fold hs in Heq, Hnd.
  unfold discover_fpga_address. fold hs.
  pose proof (try_hostnames_none e hs) as Hn.
  pose proof (try_hostnames_events e hs) as Hev.
  destruct (try_hostnames e hs) as [[ip|] tr1] eqn:Ht; simpl in Hn, Hev |- *.
  - split; [exact Hnd|]. split; [exact Heq|]. split; [reflexivity|].
    split.
    + intros Hf. apply Hn in Hf. discriminate.
    + split; [discriminate|]. intros [Hf _]. apply Hn in Hf. discriminate.
  - assert (Hf : hostnames_fail e hs) by (apply Hn; reflexivity).
    pose proof (try_ipv6_none e) as H6.
    pose proof (try_ipv6_events e) as Hev6.
    destruct (connect4 e hardcoded_ip) eqn:Hc.
    + split; [exact Hnd|]. split; [exact Heq|]. split; [reflexivity|]. split.
      * intros _. exists tr1, []. rewrite Hev. auto.
      * split; [discriminate|]. intros [_ [H _]]. discriminate.
    + destruct (try_ipv6 e) as [res tr3]. simpl in H6, Hev6.
      split; [exact Hnd|]. split; [exact Heq|]. split; [reflexivity|]. split.
      * intros _. exists tr1, tr3. auto.
      * rewrite H6. tauto.
Qed.

End DiscoverProofs.

(* ------------------------------------------------------------------ *)
(** ** run_gpiozero *)

Module RcalRunProofs.
Import Rcal RcalRun.


Lemma run_fuel_S (f : nat) (num t : Z) (s : gpio_state) :
  run_fuel (S f) num t s =
    if num <? 8 then run_fuel f (num + 1) t (snd (gpio_switch num t s))
    else if num =? 8 then (Some 0, snd (gpio_switch 0 t s))
    else (None, s).
Proof. reflexivity. Qed.




(** [run_gpiozero(num, t)] with [num > 8] takes neither branch: it drives
    no line, does not sleep, and returns [None]. *)
Theorem run_gpiozero_above_8_inert (num t : Z) (s : gpio_state)
    (H : 8 < num) :
  run_gpiozero num t s = (None, s).
Proof.
  unfold run_gpiozero. rewrite run_fuel_S.
  replace (num <? 8) with false by (symmetry; apply Z.ltb_ge; lia).
  replace (num =? 8) with false by (symmetry; apply Z.eqb_neq; lia).
  reflexivity.
Qed.

Lemma run_gpiozero_above_8_inert_witness :
  run_gpiozero 9 3 (mk_gpio true false true [1]) = (None, mk_gpio true false true [1]).
Proof. apply run_gpiozero_above_8_inert. lia. Defined.

(** The extra index 10 accepted by [gpio_switch] computes [idx = -3],
    whose two's complement bits 1 and 4 are set and bit 2 clear: it
    drives the lines exactly as state 2 does, with the same sleep. *)
Theorem gpio_switch_10_is_state_2 (t : Z) (s : gpio_state) :
  gpio_switch 10 t s = gpio_switch 2 t s.
Proof. reflexivity. Qed.

End RcalRunProofs.

(* ------------------------------------------------------------------ *)
(** ** The acquisition schedule of main *)

Module MainLoopProofs.
Import MainLoop.

Lemma saves_repeat (cur : option Z) (n : Z) (k : nat) (r : list step) :
  saves_with_state cur (repeat (Save n) k ++ r) =
    repeat (cur, n) k ++ saves_with_state cur r.
Proof. induction k as [|k IH]; simpl; [reflexivity|rewrite IH; reflexivity]. Qed.

Definition switches (steps : list step) : list Z :=
  flat_map (fun st => match st with Switch n => [n] | _ => [] end) steps.

Lemma switches_repeat (n : Z) (k : nat) :
  flat_map (fun st => match st with Switch n => [n] | _ => [] end)
    (repeat (Save n) k) = [].
Proof. induction k as [|k IH]; simpl; [reflexivity|exact IH]. Qed.

(** One sweep cycle of [main] (no [--state]): every record is saved with
    the switch in the state it is labelled with, and the records come in
    the order CAL_ACC_N of state 1, CAL_ACC_N + FB_N of state 2,
    CAL_ACC_N of each of states 3 to 7, then ANT_ACC_N of state 0 (the
    antenna), [7 * CAL_ACC_N + FB_N + ANT_ACC_N] records in all. *)
Theorem sweep_cycle_saves (CAL_ACC_N FB_N ANT_ACC_N : nat) :
  saves_with_state None (sweep_cycle CAL_ACC_N FB_N ANT_ACC_N) =
    repeat (Some 1, 1) CAL_ACC_N ++ repeat (Some 2, 2) (CAL_ACC_N + FB_N) ++
    repeat (Some 3, 3) CAL_ACC_N ++ repeat (Some 4, 4) CAL_ACC_N ++
    repeat (Some 5, 5) CAL_ACC_N ++ repeat (Some 6, 6) CAL_ACC_N ++
    repeat (Some 7, 7) CAL_ACC_N ++ repeat (Some 0, 0) ANT_ACC_N /\
  List.length (filter is_save (sweep_cycle CAL_ACC_N FB_N ANT_ACC_N)) =
    (7 * CAL_ACC_N + FB_N + ANT_ACC_N)%nat.
Proof.
  assert (Hs : forall n k, filter is_save (repeat (Save n) k) = repeat (Save n) k)
    by (intros n k; induction k as [|k IH]; simpl; [reflexivity|rewrite IH; reflexivity]).
  unfold sweep_cycle, cal_state_steps. simpl.
  split.
  - rewrite <- !app_assoc. simpl.
    repeat (rewrite <- ?app_assoc; rewrite saves_repeat; simpl). rewrite ?app_nil_r. reflexivity.
  - repeat progress (rewrite ?filter_app, ?Hs, ?length_app, ?repeat_length; simpl). lia.
Qed.

(** A sweep cycle sets the switch to 1, 2, ..., 7 and then 0, once each,
    and ends with the cycle increment. *)
Theorem sweep_cycle_switch_order (CAL_ACC_N FB_N ANT_ACC_N : nat) :
  switches (sweep_cycle CAL_ACC_N FB_N ANT_ACC_N) = [1; 2; 3; 4; 5; 6; 7; 0] /\
  last (sweep_cycle CAL_ACC_N FB_N ANT_ACC_N) (Switch 0) = EndCycle /\
  List.length (filter (fun st => match st with EndCycle => true | _ => false end)
                 (sweep_cycle CAL_ACC_N FB_N ANT_ACC_N)) = 1%nat.
Proof.
  assert (He : forall n k, filter (fun st => match st with EndCycle => true | _ => false end)
                             (repeat (Save n) k) = [])
    by (intros n k; induction k as [|k IH]; simpl; [reflexivity|exact IH]).
  split; [|split].
  - unfold sweep_cycle, cal_state_steps, switches. simpl.
    repeat progress (rewrite ?flat_map_app, ?switches_repeat; simpl). reflexivity.
  - unfold sweep_cycle. rewrite (app_assoc _ (Switch 0 :: _)), last_last. reflexivity.
  - unfold sweep_cycle, cal_state_steps. simpl.
    repeat progress (rewrite ?filter_app, ?He; simpl). reflexivity.
Qed.


End MainLoopProofs.

(* ------------------------------------------------------------------ *)
(** ** initialize_fpga : retries and the fatal path *)

Module InitProofs.
Import InitFpga.
Local Open Scope list_scope.

Lemma retry_first_success (d : nat -> option string) (k : nat) :
  forall n attempt,
    (k < n)%nat -> (attempt + k < max_retries)%nat ->
    (forall j, (j < k)%nat -> truthy (d (attempt + j)%nat) = false) ->
    truthy (d (attempt + k)%nat) = true ->
    retry d n attempt =
      (d (attempt + k)%nat,
       List.concat (repeat [DiscoverCall; Sleep retry_delay] k) ++ [DiscoverCall]).
Proof.
  induction k as [|k IH]; intros n attempt Hn Ha Hpre Hk.
  - destruct n as [|n]; [lia|]. simpl.
    rewrite Nat.add_0_r in Hk. rewrite Hk, Nat.add_0_r. reflexivity.
  - destruct n as [|n]; [lia|]. simpl.
    pose proof (Hpre 0%nat ltac:(lia)) as H0. rewrite Nat.add_0_r in H0. rewrite H0.
    replace (Nat.ltb attempt 4) with true
      by (symmetry; apply Nat.ltb_lt; unfold max_retries in *; lia).
    destruct n as [|n']; [lia|].
    rewrite (IH (S n') (S attempt)); [| lia | lia | |].
    + replace (S attempt + k)%nat with (attempt + S k)%nat by lia. reflexivity.
    + intros j Hj. replace (S attempt + j)%nat with (attempt + S j)%nat by lia.
      apply Hpre. lia.
    + replace (S attempt + k)%nat with (attempt + S k)%nat by lia. exact Hk.
Qed.

(** When the [k]-th discovery attempt ([k < 5]) is the first to return a
    truthy address, [initialize_fpga] switches to state 0, makes exactly
    [k + 1] discovery calls with a 5 s pause after each failed one, keeps
    that address, and takes no fatal path (no 180 s sleep, no reboot). *)
Theorem init_first_success (d : nat -> option string) (k : nat)
    (Hk : (k < max_retries)%nat)
    (Hpre : forall j, (j < k)%nat -> truthy (d j) = false)
    (Hok : truthy (d k) = true) :
  init_discovery d =
    (d k, GpioSwitch 0 2 :: List.concat (repeat [DiscoverCall; Sleep 5] k) ++ [DiscoverCall]).
Proof.
  unfold init_discovery.
  rewrite (retry_first_success d k max_retries 0 Hk ltac:(lia) Hpre Hok).
  simpl (0 + k)%nat. rewrite Hok, app_nil_r. reflexivity.
Qed.

Definition third_try (k : nat) : option string :=
  match k with 0%nat => None | 1%nat => Some ""%string | _ => Some "10.0.0.2"%string end.

Lemma init_first_success_witness :
  init_discovery third_try =
    (Some "10.0.0.2"%string,
     [GpioSwitch 0 2; DiscoverCall; Sleep 5; DiscoverCall; Sleep 5; DiscoverCall]).
Proof.
  apply (init_first_success third_try 2); [vm_compute; lia| |reflexivity].
  intros j Hj. destruct j as [|[|j]]; [reflexivity|reflexivity|lia].
Defined.

(** When none of the five discovery attempts returns a truthy address
    ([None] or the empty string), [initialize_fpga] makes five discovery
    calls with four 5 s pauses between them (none after the last), then
    sleeps 180 s and issues the reboot. *)
Theorem init_all_fail_reboots (d : nat -> option string)
    (Hfail : forall j, (j < max_retries)%nat -> truthy (d j) = false) :
  init_discovery d =
    (d 4%nat,
     [GpioSwitch 0 2; DiscoverCall; Sleep 5; DiscoverCall; Sleep 5;
      DiscoverCall; Sleep 5; DiscoverCall; Sleep 5; DiscoverCall;
      Sleep 180; Reboot]).
Proof.
  unfold init_discovery. simpl retry.
  rewrite (Hfail 0%nat), (Hfail 1%nat), (Hfail 2%nat), (Hfail 3%nat), (Hfail 4%nat)
    by (unfold max_retries; lia).
  simpl. rewrite (Hfail 4%nat) by (unfold max_retries; lia).
  reflexivity.
Qed.

Lemma init_all_fail_reboots_witness :
  init_discovery (fun _ => Some ""%string) =
    (Some ""%string,
     [GpioSwitch 0 2; DiscoverCall; Sleep 5; DiscoverCall; Sleep 5;
      DiscoverCall; Sleep 5; DiscoverCall; Sleep 5; DiscoverCall;
      Sleep 180; Reboot]).
Proof. apply (init_all_fail_reboots (fun _ => Some ""%string)). intros j _. reflexivity. Defined.

End InitProofs.

(* ------------------------------------------------------------------ *)
(** ** The address returned by discover_fpga_address *)

Module DiscoverExtraProofs.
Import Discover.
Local Open Scope string_scope.
Local Open Scope list_scope.

Lemma try_hostnames_some (e : env) (hs : list string) (ip : string) tr :
  try_hostnames e hs = (Some ip, tr) ->
  connect4 e ip = true /\ exists tr0, tr = tr0 ++ [Connect ip].
Proof.
  revert tr. induction hs as [|h r IH]; intros tr H; simpl in H; [discriminate|].
  destruct (resolve e h) as [ip'|].
  - destruct (connect4 e ip') eqn:Hc.
    + injection H as <- <-. split; [exact Hc|]. exists [Resolve h]. reflexivity.
    + destruct (try_hostnames e r) as [res tr'] eqn:Ht. injection H as -> <-.
      destruct (IH tr' eq_refl) as [Hc' [tr0 ->]]. split; [exact Hc'|].
      exists (Resolve h :: Connect ip' :: tr0). reflexivity.
  - destruct (try_hostnames e r) as [res tr'] eqn:Ht. injection H as -> <-.
    destruct (IH tr' eq_refl) as [Hc' [tr0 ->]]. split; [exact Hc'|].
    exists (Resolve h :: tr0). reflexivity.
Qed.

Lemma try_addrs_some (e : env) (i : string) (addrs : list string) (a : string) tr :
  try_addrs e i addrs = (Some a, tr) ->
  connect6 e a i = true /\ exists tr0, tr = tr0 ++ [Connect6 a i].
Proof.
  revert tr. induction addrs as [|a' r IH]; intros tr H; simpl in H; [discriminate|].
  destruct (connect6 e a' i) eqn:Hc.
  - injection H as <- <-. split; [exact Hc|]. exists []. reflexivity.
  - destruct (try_addrs e i r) as [res tr'] eqn:Ht. injection H as -> <-.
    destruct (IH tr' eq_refl) as [Hc' [tr0 ->]]. split; [exact Hc'|].
    exists (Connect6 a' i :: tr0). reflexivity.
Qed.

Lemma try_ifaces_some (e : env) (ifs : list string) (a : string) tr :
  try_ifaces e ifs = (Some a, tr) ->
  exists i tr0, connect6 e a i = true /\ tr = tr0 ++ [Connect6 a i].
Proof.
  revert tr. induction ifs as [|i r IH]; intros tr H; simpl in H; [discriminate|].
  destruct (neigh e i) as [addrs|].
  - destruct (try_addrs e i addrs) as [[a'|] tr1] eqn:Ha.
    + injection H as -> <-.
      destruct (try_addrs_some e i addrs a tr1 Ha) as [Hc [tr0 ->]].
      exists i, (Probe i :: tr0). split; [exact Hc|reflexivity].
    + destruct (try_ifaces e r) as [res tr'] eqn:Ht. injection H as -> <-.
      destruct (IH tr' eq_refl) as [i' [tr0 [Hc ->]]].
      exists i', (Probe i :: tr1 ++ tr0). split; [exact Hc|].
      rewrite app_comm_cons, app_assoc. reflexivity.
  - destruct (try_ifaces e r) as [res tr'] eqn:Ht. injection H as -> <-.
    destruct (IH tr' eq_refl) as [i' [tr0 [Hc ->]]].
    exists i', (Probe i :: tr0). split; [exact Hc|reflexivity].
Qed.

(** [discover_fpga_address] only ever returns an address whose connection
    test succeeded: either an IPv4 address (resolved or hardcoded) that
    accepted a TCP connection on port 7147, or a link-local address that
    accepted the scoped connection on its interface; that successful
    connection is the last attempt made. *)
Theorem discover_returns_connected (e : env) (hardcoded_ip : string)
    (hostname_hint : option string) (a : string) (tr : list event)
    (H : discover_fpga_address e hardcoded_ip hostname_hint = (Some a, tr)) :
  (connect4 e a = true /\ exists tr0, tr = tr0 ++ [Connect a]) \/
  (exists i tr0, connect6 e a i = true /\ tr = tr0 ++ [Connect6 a i]).
Proof.
  unfold discover_fpga_address in H.
  destruct (try_hostnames e (hostnames_to_try hostname_hint)) as [[ip|] tr1] eqn:Ht.
  - injection H as <- <-. left. exact (try_hostnames_some e _ ip tr1 Ht).
  - destruct (connect4 e hardcoded_ip) eqn:Hc.
    + injection H as <- <-. left. split; [exact Hc|]. exists tr1. reflexivity.
    + unfold try_ipv6 in H.
      destruct (link_ifaces e) as [ifs|]; [|discriminate].
      destruct (try_ifaces e (filter candidate_iface ifs)) as [res tr3] eqn:Hi.
      injection H as -> <-. right.
      destruct (try_ifaces_some e _ a tr3 Hi) as [i [tr0 [Hc6 ->]]].
      exists i, (tr1 ++ Connect hardcoded_ip :: tr0). split; [exact Hc6|].
      rewrite app_comm_cons, app_assoc. reflexivity.
Qed.

Definition env_v6 : env :=
  mk_env (fun _ => None) (fun _ => false) (Some ["eth0"%string])
         (fun _ => Some ["fe80::1"%string]) (fun _ _ => true).

Lemma discover_returns_connected_witness :
  discover_fpga_address env_v6 "192.168.1.10" None =
    (Some "fe80::1"%string,
     [Resolve "rfsoc"; Resolve "localhost.localdomain"; Resolve "localhost";
      Connect "192.168.1.10"; Probe "eth0"; Connect6 "fe80::1" "eth0"]) /\
  connect6 env_v6 "fe80::1" "eth0" = true.
Proof.
  assert (H : discover_fpga_address env_v6 "192.168.1.10" None =
    (Some "fe80::1"%string,
     [Resolve "rfsoc"; Resolve "localhost.localdomain"; Resolve "localhost";
      Connect "192.168.1.10"; Probe "eth0"; Connect6 "fe80::1" "eth0"])) by reflexivity.
  split; [exact H|].
  destruct (discover_returns_connected env_v6 _ _ _ _ H) as [[Hc _]|[i [tr0 [Hc Htr]]]].
  - discriminate.
  - reflexivity.
Defined.

End DiscoverExtraProofs.

(* ------------------------------------------------------------------ *)
(** ** struct.unpack and the accumulator read *)

Module VaccExtraProofs.
Import Vacc.

Lemma byte_val_range (b : Byte.byte) : 0 <= byte_val b < 256.
Proof.
  unfold byte_val. pose proof (Stdlib.Strings.Byte.to_N_bounded b). lia.
Qed.

Lemma byte_of_land (x : Z) :
  byte_val (match Byte.of_N (Z.to_N (Z.land x 255)) with
            | Some b => b | None => Byte.x00 end) = Z.land x 255.
Proof.
  assert (Hr : 0 <= Z.land x 255 < 256).
  { change 255 with (Z.ones 8). rewrite Z.land_ones by lia.
    apply Z.mod_pos_bound. lia. }
  destruct (Byte.of_N (Z.to_N (Z.land x 255))) as [b|] eqn:Hb.
  - apply Stdlib.Strings.Byte.to_of_N in Hb. unfold byte_val. rewrite Hb. lia.
  - apply Stdlib.Strings.Byte.of_N_None_iff in Hb. lia.
Qed.

Lemma shr_step (v a b : Z) :
  0 <= a -> b = a + 8 ->
  Z.shiftr v b * 256 + Z.land (Z.shiftr v a) 255 = Z.shiftr v a.
Proof.
  intros Ha ->. rewrite Z.add_comm, <- Z.shiftr_shiftr by lia.
  set (y := Z.shiftr v a).
  change 255 with (Z.ones 8). rewrite Z.land_ones, Z.shiftr_div_pow2 by lia.
  change (2 ^ 8) with 256. pose proof (Z.div_mod y 256). lia.
Qed.

Lemma be_u64_bytes (v : Z) : 0 <= v < 2 ^ 64 -> be_u64 (be_bytes_u64 v) = v.
Proof.
  intros Hv. unfold be_u64, be_bytes_u64. cbn [map fold_left].
  rewrite !byte_of_land.
  assert (H64 : Z.shiftr v (8 * 8) = 0).
  { rewrite Z.shiftr_div_pow2 by lia. apply Z.div_small. lia. }
  replace (0 * 256) with (Z.shiftr v (8 * 8) * 256) by (rewrite H64; reflexivity).
  rewrite (shr_step v (8 * 7) (8 * 8)), (shr_step v (8 * 6) (8 * 7)),
    (shr_step v (8 * 5) (8 * 6)), (shr_step v (8 * 4) (8 * 5)),
    (shr_step v (8 * 3) (8 * 4)), (shr_step v (8 * 2) (8 * 3)),
    (shr_step v (8 * 1) (8 * 2)), (shr_step v (8 * 0) (8 * 1)) by lia.
  apply Z.shiftr_0_r.
Qed.

Lemma be_u64_range (bs : list Byte.byte) (acc : Z) :
  0 <= acc ->
  0 <= fold_left (fun acc b => acc * 256 + byte_val b) bs acc <
       (acc + 1) * 256 ^ Z.of_nat (List.length bs).
Proof.
  revert acc. induction bs as [|b bs IH]; intros acc Hacc; cbn [fold_left List.length].
  - simpl. lia.
  - pose proof (byte_val_range b).
    specialize (IH (acc * 256 + byte_val b) ltac:(lia)).
    rewrite Nat2Z.inj_succ, Z.pow_succ_r by lia.
    assert (0 < 256 ^ Z.of_nat (List.length bs)) by (apply Z.pow_pos_nonneg; lia).
    nia.
Qed.

Lemma unpack_be_u64_S (m : nat) (raw : list Byte.byte) :
  unpack_be_u64 (S m) raw =
    if Nat.eqb (List.length (firstn 8 raw)) 8
    then option_map (cons (be_u64 (firstn 8 raw))) (unpack_be_u64 m (skipn 8 raw))
    else None.
Proof. reflexivity. Qed.

(** [struct.unpack('>{m}Q', raw)] raises [struct.error] exactly when
    [raw] does not hold [8 * m] bytes; otherwise it yields [m] values,
    each in [0, 2^64). *)
Theorem unpack_be_u64_size (m : nat) (raw : list Byte.byte) :
  (unpack_be_u64 m raw = None <-> List.length raw <> (8 * m)%nat) /\
  (forall vs, unpack_be_u64 m raw = Some vs ->
     List.length vs = m /\ Forall (fun v => 0 <= v < 2 ^ 64) vs).
Proof.
  revert raw. induction m as [|m IH]; intros raw.
  - destruct raw as [|b raw]; simpl.
    + split; [split; [discriminate|lia]|]. intros vs H. injection H as <-. auto.
    + split; [split; [lia|reflexivity]|]. discriminate.
  - rewrite unpack_be_u64_S.
    destruct (Nat.eqb_spec (List.length (firstn 8 raw)) 8) as [H8|H8].
    + rewrite length_firstn in H8.
      destruct (IH (skipn 8 raw)) as [IHn IHs]. rewrite length_skipn in IHn.
      split.
      * destruct (unpack_be_u64 m (skipn 8 raw)) as [vs|] eqn:Hu; simpl.
        -- split; [intros Hc; discriminate Hc|].
           intros Hl. assert (Hx : Some vs = None) by (apply IHn; lia). discriminate Hx.
        -- split; [intros _; destruct IHn as [Hn _]; specialize (Hn eq_refl); lia|reflexivity].
      * intros vs H.
        destruct (unpack_be_u64 m (skipn 8 raw)) as [vs'|]; [|discriminate].
        injection H as <-. destruct (IHs vs' eq_refl) as [Hl Hf].
        split; [simpl; lia|]. constructor; [|exact Hf].
        pose proof (be_u64_range (firstn 8 raw) 0 ltac:(lia)) as Hr.
        rewrite length_firstn in Hr. replace (Nat.min 8 (List.length raw)) with 8%nat in Hr by lia.
        exact Hr.
    + rewrite length_firstn in H8. split; [split; [intros _; lia|reflexivity]|].
      discriminate.
Qed.

Lemma encode_channel_length (row : list Z) :
  List.length (encode_channel row) = (8 * List.length row)%nat.
Proof.
  induction row as [|x r IH]; [reflexivity|].
  unfold encode_channel in *. cbn [flat_map]. rewrite length_app, IH.
  change (List.length (be_bytes_u64 x)) with 8%nat. cbn [List.length]. lia.
Qed.

(** Decoding inverts the big-endian encoding of a block: a memory holding
    [row] as big-endian 64-bit words unpacks to [row]. *)
Theorem unpack_encode_round_trip (row : list Z)
    (H : Forall (fun v => 0 <= v < 2 ^ 64) row) :
  unpack_be_u64 (List.length row) (encode_channel row) = Some row.
Proof.
  induction H as [|x r Hx Hr IH]; [reflexivity|].
  change (List.length (x :: r)) with (S (List.length r)).
  rewrite unpack_be_u64_S. unfold encode_channel. cbn [flat_map]. fold (encode_channel r).
  assert (H8 : List.length (be_bytes_u64 x) = 8%nat) by reflexivity.
  assert (Hf : firstn 8 (be_bytes_u64 x ++ encode_channel r) = be_bytes_u64 x).
  { rewrite <- H8, firstn_app, Nat.sub_diag, firstn_O, app_nil_r. apply firstn_all. }
  assert (Hs : skipn 8 (be_bytes_u64 x ++ encode_channel r) = encode_channel r).
  { rewrite <- H8, skipn_app, Nat.sub_diag, skipn_O, skipn_all. reflexivity. }
  rewrite Hf, Hs, H8, IH, be_u64_bytes by exact Hx. reflexivity.
Qed.

Lemma unpack_encode_round_trip_witness :
  unpack_be_u64 2 (encode_channel [1; 18446744073709551615]) =
    Some [1; 18446744073709551615].
Proof. apply (unpack_encode_round_trip [1; 18446744073709551615]). repeat constructor; lia. Defined.


Lemma decode_channels_none (M : nat) read (idxs : list nat) :
  decode_channels M read idxs = None <->
  exists i, In i idxs /\ unpack_be_u64 M (read (reg_name i) (M * 8)%nat) = None.
Proof.
  induction idxs as [|i r IH]; simpl.
  - split; [discriminate|intros [i [[] _]]].
  - destruct (unpack_be_u64 M (read (reg_name i) (M * 8)%nat)) as [row|] eqn:Hu.
    + destruct (decode_channels M read r) as [rows|]; simpl.
      * split; [intros Hc; discriminate Hc|]. intros [j [[<-|Hj] Hn]]; [congruence|].
        assert (Hx : Some rows = None) by (apply IH; exists j; auto). discriminate Hx.
      * split; [|reflexivity]. intros _.
        destruct (proj1 IH eq_refl) as [j [Hj Hn]]. exists j. auto.
    + split; [intros _; exists i; auto|reflexivity].
Qed.




(** [get_vacc_data] fails (ZeroDivisionError or struct.error) exactly
    when [NCHANNELS = 0] or some channel register does not return
    [8 * M] bytes for the [M = NFFT/2/NCHANNELS] samples requested. *)
Theorem get_vacc_data_none (C NFFT : nat)
    (read : string -> nat -> list Byte.byte) (acc : Z) :
  get_vacc_data C NFFT read acc = None <->
  C = 0%nat \/
  exists c, (c < C)%nat /\
    List.length (read (reg_name c) (NFFT / 2 / C * 8)%nat) <> (8 * (NFFT / 2 / C))%nat.
Proof.
  unfold get_vacc_data.
  destruct (Nat.eqb_spec C 0) as [->|HC].
  - split; [intros _; left; reflexivity|reflexivity].
  - set (M := (NFFT / 2 / C)%nat).
    destruct (decode_channels M read (seq 0 C)) as [rows|] eqn:Hd.
    + split; [intros Hc; discriminate Hc|].
      intros [Hz|[c [Hc Hl]]]; [contradiction|].
      assert (Hx : Some rows = None).
      { rewrite <- Hd. apply decode_channels_none. exists c. split.
        - apply in_seq. lia.
        - apply unpack_be_u64_size. exact Hl. }
      discriminate Hx.
    + split; [intros _|reflexivity]. right.
      destruct (proj1 (decode_channels_none M read (seq 0 C)) Hd) as [c [Hc Hu]].
      apply in_seq in Hc. exists c. split; [lia|].
      apply unpack_be_u64_size. exact Hu.
Qed.
End VaccExtraProofs.

(* ------------------------------------------------------------------ *)
(** ** When get_acc_cnt keeps waiting *)

Module AccCntExtraProofs.
Import AccCnt.

Lemma poll_none (rest : list Z) (last acc : Z) (c : nat) :
  poll rest last acc c = None <-> acc = last /\ Forall (fun x => x = last) rest.
Proof.
  revert acc c. induction rest as [|a r IH]; intros acc c; simpl.
  - destruct (Z.eqb_spec acc last).
    + split; [intros _; auto|reflexivity].
    + split; [intros Hc; discriminate Hc|intros [Ha _]; contradiction].
  - destruct (Z.eqb_spec acc last) as [Heq|Hne].
    + rewrite IH. split.
      * intros [Ha Hr]. auto.
      * intros [_ Hf]. inversion Hf; subst. auto.
    + split; [intros Hc; discriminate Hc|intros [Ha _]; contradiction].
Qed.

(** [get_acc_cnt] never returns (the model runs out of reads) exactly
    when no read was made, or the first read is at least [last_acc_n]
    and every later read equals it: a first read below [last_acc_n] is
    returned at once, and otherwise any change of the counter ends the
    wait. *)
Theorem get_acc_cnt_blocks (reads : list Z) (last_acc_n : Z) :
  get_acc_cnt reads last_acc_n = None <->
  reads = [] \/
  exists a0 rest, reads = a0 :: rest /\ last_acc_n <= a0 /\
                  Forall (fun x => x = a0) rest.
Proof.
  destruct reads as [|a0 rest]; simpl.
  - split; [intros _; left; reflexivity|reflexivity].
  - rewrite poll_none. destruct (Z.gtb_spec a0 last_acc_n) as [Hgt|Hle].
    + split.
      * intros [_ Hf]. right. exists a0, rest. split; [reflexivity|]. split; [lia|exact Hf].
      * intros [Hc|[a [r [Hc [_ Hf]]]]]; [discriminate Hc|]. injection Hc as <- <-. auto.
    + split.
      * intros [Ha Hf]. right. exists a0, rest. subst. split; [reflexivity|]. split; [lia|exact Hf].
      * intros [Hc|[a [r [Hc [Hl Hf]]]]]; [discriminate Hc|]. injection Hc as <- <-.
        assert (a0 = last_acc_n) by lia. subst. auto.
Qed.

End AccCntExtraProofs.

(* ------------------------------------------------------------------ *)
(** ** sum_spectrum on equal-length spectra *)

Module AveragedExtraProofs.
Import Averaged.






End AveragedExtraProofs.

(* ------------------------------------------------------------------ *)
(** ** save_data : errors, what it keeps, where the parent comes from *)

Module SessionExtraProofs.
Import Session.
Local Open Scope string_scope.
Local Open Scope list_scope.

Lemma py_last_none (l : list string) : py_last l = None <-> l = [].
Proof.
  induction l as [|x [|y r] IH]; simpl.
  - split; reflexivity.
  - split; discriminate.
  - rewrite IH. split; discriminate.
Qed.

Lemma save_data_err_spec (rd : option string) (hms : string) (f : fs)
    (st : session) (fn : string) :
  (save_data true rd hms f st fn = Err IndexError <-> drive_sessions f = []) /\
  (forall e, save_data true rd hms f st fn = Err e ->
     e = IndexError \/ e = FileExistsError).
Proof.
  unfold save_data. simpl.
  destruct (py_last (drive_sessions f)) as [dirname|] eqn:Hl.
  - assert (Hne : drive_sessions f <> []) by (intros He; apply py_last_none in He; congruence).
    match goal with |- context [if ?c then Ok f else mkdir ?p f] =>
      destruct (if c then Ok f else mkdir p f) as [f1|e] eqn:Hm end.
    + match goal with |- context [let '(_, _) := ?x in _] => destruct x as [st1 f2] end.
      split; [split; [intros Hc; discriminate Hc|contradiction]|].
      intros e Hc. discriminate Hc.
    + assert (He : e = FileExistsError).
      { destruct (in_listdir _ _ f) in Hm; [discriminate Hm|].
        unfold mkdir in Hm. destruct (path_exists _ f); [|discriminate Hm].
        injection Hm as <-. reflexivity. }
      subst e. split; [split; [intros Hc; discriminate Hc|contradiction]|].
      intros e Hc. injection Hc as <-. auto.
  - apply py_last_none in Hl. split; [split; auto|].
    intros e Hc. injection Hc as <-. auto.
Qed.


Lemma np_save_keeps (p : string) (f : fs) :
  drive_sessions (np_save p f) = drive_sessions f /\ dirs (np_save p f) = dirs f /\
  (forall q, In q (files f) -> In q (files (np_save p f))) /\
  In p (files (np_save p f)) /\
  (NoDup (files f) -> NoDup (files (np_save p f))).
Proof.
  unfold np_save. simpl. split; [reflexivity|]. split; [reflexivity|].
  split; [|split].
  - intros q Hq. apply in_or_app.
    destruct (String.eqb_spec q p) as [->|Hne]; [right; left; reflexivity|].
    left. apply filter_In. split; [exact Hq|].
    apply negb_true_iff, String.eqb_neq. exact Hne.
  - apply in_or_app. right. left. reflexivity.
  - intros Hnd. apply NoDup_app; [apply NoDup_filter, Hnd|repeat constructor; intros []|].
    intros q Hq Hq'. apply filter_In in Hq as [_ Hq].
    destruct Hq' as [->|[]]. rewrite String.eqb_refl in Hq. discriminate Hq.
Qed.

Lemma add_dir_fresh (p : string) (f : fs) :
  path_exists p f = false -> NoDup (dirs f) -> NoDup (dirs (add_dir p f)).
Proof.
  intros Hp Hnd. unfold add_dir. simpl.
  apply NoDup_app; [exact Hnd|repeat constructor; intros []|].
  intros q Hq [Hpq|[]]. subst p. unfold path_exists in Hp.
  assert (Hx : existsb (String.eqb q) (dirs f) = true)
    by (apply existsb_exists; exists q; split; [exact Hq|apply String.eqb_refl]).
  congruence.
Qed.

Lemma save_data_storage_spec (SAVE_DATA : bool) (rd : option string)
    (hms : string) (f : fs) (st : session) (fn : string) (f' : fs) (st' : session)
    (H : save_data SAVE_DATA rd hms f st fn = Ok (f', st')) :
  drive_sessions f' = drive_sessions f /\
  (forall d, In d (dirs f) -> In d (dirs f')) /\
  (forall q, In q (files f) -> In q (files f')) /\
  (NoDup (dirs f) -> NoDup (dirs f')) /\
  (NoDup (files f) -> NoDup (files f')).
Proof.
  unfold save_data in H. destruct SAVE_DATA; simpl in H;
    [|injection H as <- <-; auto 6].
  destruct (py_last (drive_sessions f)) as [dirname|]; [|discriminate H].
  set (pp := join (join BASE_PATH dirname) _) in H.
  assert (H1 : forall f1, (if in_listdir (join BASE_PATH dirname)
                                (match rd with Some r => r | None => first_token fn end) f
                           then Ok f else mkdir pp f) = Ok f1 ->
             drive_sessions f1 = drive_sessions f /\ files f1 = files f /\
             (forall d, In d (dirs f) -> In d (dirs f1)) /\
             (NoDup (dirs f) -> NoDup (dirs f1))).
  { intros f1 Hf1. destruct (in_listdir _ _ f).
    - injection Hf1 as <-. auto.
    - unfold mkdir in Hf1. destruct (path_exists pp f) eqn:Hp; [discriminate Hf1|].
      injection Hf1 as <-. unfold add_dir. simpl. split; [reflexivity|]. split; [reflexivity|].
      split; [intros d Hd; apply in_or_app; left; exact Hd|].
      apply add_dir_fresh, Hp. }
  destruct (if in_listdir _ _ f then Ok f else mkdir pp f) as [f1|e];
    [|discriminate H].
  destruct (H1 f1 eq_refl) as [Hd1 [Hf1 [Hi1 Hn1]]].
  assert (H2 : forall st1 f2,
    (if Z.leb 1 (cycle_count st) ||
        match current_sub_dir_path st with None => true | Some _ => false end then
       let '(p, cnt, f2) := get_sub_directory pp (sub_dir_count st) hms f1 in
       (mk_session 0 cnt (Some (match rd with Some r => r | None => first_token fn end))
          (Some p), f2)
     else (st, f1)) = (st1, f2) ->
    drive_sessions f2 = drive_sessions f1 /\ files f2 = files f1 /\
    (forall d, In d (dirs f1) -> In d (dirs f2)) /\
    (NoDup (dirs f1) -> NoDup (dirs f2))).
  { intros st1 f2 Hs. destruct (_ || _).
    - unfold get_sub_directory in Hs.
      destruct (path_exists (join pp hms) f1) eqn:Hp; simpl in Hs; injection Hs as _ <-.
      + auto.
      + unfold add_dir. simpl. split; [reflexivity|]. split; [reflexivity|].
        split; [intros d Hd; apply in_or_app; left; exact Hd|].
        apply add_dir_fresh, Hp.
    - injection Hs as _ <-. auto. }
  destruct (if _ || _ then _ else _) as [st1 f2] eqn:Hs.
  destruct (H2 st1 f2 eq_refl) as [Hd2 [Hf2 [Hi2 Hn2]]].
  injection H as <- <-.
  destruct (np_save_keeps (join match current_sub_dir_path st1 with
                                | Some p => p | None => "" end (fn ++ ".npy")) f2)
    as [Hd3 [Hdd3 [Hi3 [_ Hn3]]]].
  rewrite Hd3, Hdd3, Hd2, Hd1. split; [reflexivity|].
  split; [intros d Hd; apply Hi2, Hi1, Hd|].
  split; [intros q Hq; apply Hi3; rewrite Hf2, Hf1; exact Hq|].
  split; [intros Hn; apply Hn2, Hn1, Hn|].
  intros Hn. apply Hn3. rewrite Hf2, Hf1. exact Hn.
Qed.



Definition no_underscore (d : string) : bool :=
  forallb (fun c => negb (Ascii.eqb c "_"%char)) (list_ascii_of_string d).

Lemma first_token_prefix (d r t : string) :
  no_underscore d = true -> first_token ((d ++ String "_" r) ++ t) = d.
Proof.
  induction d as [|c d IH]; intros Hd; [reflexivity|].
  unfold no_underscore in Hd. simpl in Hd. apply andb_true_iff in Hd as [Hc Hd].
  simpl. apply negb_true_iff in Hc. rewrite Hc. f_equal. apply IH, Hd.
Qed.

(** Where [main]'s records go when no [--run_directory] is given: the
    name [write_filename] builds from a [%Y%m%d_%H%M%S] timestamp starts
    with the date, so a save that opens a subdirectory takes the date as
    the parent directory and puts the subdirectory, named by the clock
    time, below [BASE_PATH/<last drive entry>/<date>]. *)
Theorem record_parent_is_date (SAVE_EACH_ACC : bool) (ANTENNA date hms_ts : string)
    (switch_value cnt : Z) (hms : string) (f : fs) (st : session) (f' : fs) (st' : session)
    (Hd : no_underscore date = true)
    (Hdue : SessionProofs.new_sub_dir_due st = true)
    (H : save_data true None hms f st
           (Filename.record_filename SAVE_EACH_ACC ANTENNA (date ++ "_" ++ hms_ts)
              switch_value cnt) = Ok (f', st')) :
  current_parent_dir st' = Some date /\
  exists dirname, py_last (drive_sessions f) = Some dirname /\
    current_sub_dir_path st' = Some (join (join (join BASE_PATH dirname) date) hms).
Proof.
  destruct (SessionProofs.save_data_enabled_spec _ _ _ _ _ _ _ H)
    as [dirname [Hl [Hb _]]].
  destruct (Hb Hdue) as [_ [Hp [Hs _]]].
  assert (Ht : SessionProofs.parent_dir_name None
                 (Filename.record_filename SAVE_EACH_ACC ANTENNA (date ++ "_" ++ hms_ts)
                    switch_value cnt) = date).
  { unfold SessionProofs.parent_dir_name, Filename.record_filename, Filename.write_filename.
    destruct SAVE_EACH_ACC.
    - rewrite FilenameProofs.string_app_assoc. apply first_token_prefix, Hd.
    - apply first_token_prefix, Hd. }
  rewrite Ht in Hp, Hs. split; [exact Hp|]. exists dirname. auto.
Qed.

Lemma record_parent_is_date_witness :
  save_data true None "120000" SessionProofs.one_drive init_session
    (Filename.record_filename false "1" "20251103_120000" 3 0) =
    Ok (mk_fs ["INDURANCE"]
          ["/media/peterson/INDURANCE/20251103";
           "/media/peterson/INDURANCE/20251103/120000"]
          ["/media/peterson/INDURANCE/20251103/120000/20251103_120000_antenna1_state3.npy"],
        mk_session 0 1 (Some "20251103")
          (Some "/media/peterson/INDURANCE/20251103/120000")) /\
  current_parent_dir (mk_session 0 1 (Some "20251103")
    (Some "/media/peterson/INDURANCE/20251103/120000")) = Some "20251103".
Proof.
  assert (H : save_data true None "120000" SessionProofs.one_drive init_session
    (Filename.record_filename false "1" ("20251103" ++ "_" ++ "120000") 3 0) =
    Ok (mk_fs ["INDURANCE"]
          ["/media/peterson/INDURANCE/20251103";
           "/media/peterson/INDURANCE/20251103/120000"]
          ["/media/peterson/INDURANCE/20251103/120000/20251103_120000_antenna1_state3.npy"],
        mk_session 0 1 (Some "20251103")
          (Some "/media/peterson/INDURANCE/20251103/120000"))) by reflexivity.
  split; [exact H|].
  destruct (record_parent_is_date false "1" "20251103" "120000" 3 0 "120000"
              SessionProofs.one_drive init_session _ _ eq_refl eq_refl H) as [Hp _].
  exact Hp.
Defined.

End SessionExtraProofs.

(* ------------------------------------------------------------------ *)
(** ** Successive saves driven by main *)

Module SessionRunProofs.
Import Session SessionRun.
Local Open Scope string_scope.
Local Open Scope list_scope.

Definition is_asave (a : action) : bool :=
  match a with ASave _ _ => true | AEndCycle => false end.

Definition count_end_cycles (acts : list action) : nat :=
  List.length (filter (fun a => negb (is_asave a)) acts).

(** The cycle counter as the code leaves it: every save resets it, every
    cycle end increments it. *)
Definition cycle_after (c : Z) (acts : list action) : Z :=
  fold_left (fun c a => match a with ASave _ _ => 0 | AEndCycle => c + 1 end) acts c.

(** With [SAVE_DATA = False], a run of saves and cycle ends leaves the
    storage untouched and only counts cycles: no subdirectory is ever
    opened and the cycle counter grows by the number of cycle ends. *)
Theorem run_disabled_only_counts (rd : option string) (acts : list action)
    (f : fs) (st : session) :
  run_actions false rd acts f st =
    Ok (f, mk_session (cycle_count st + Z.of_nat (count_end_cycles acts))
                      (sub_dir_count st) (current_parent_dir st) (current_sub_dir_path st)).
Proof.
  revert st. induction acts as [|[hms fn|] r IH]; intros st; simpl.
  - rewrite Z.add_0_r. destruct st; reflexivity.
  - apply IH.
  - unfold count_end_cycles in *. rewrite IH. unfold end_cycle.
    cbn [cycle_count sub_dir_count current_parent_dir current_sub_dir_path filter is_asave negb List.length].
    rewrite Zpos_P_of_succ_nat.
    match goal with |- context [cycle_count st + 1 + ?x] =>
      replace (cycle_count st + 1 + x) with (cycle_count st + Z.succ x) by lia end.
    reflexivity.
Qed.

(** Saves with no cycle end in between, starting when no subdirectory is
    due, all write into the current subdirectory: the session is left as
    it was. *)
Theorem run_saves_same_subdir (rd : option string) (acts : list action)
    (f : fs) (st : session) (f' : fs) (st' : session)
    (Hs : forallb is_asave acts = true)
    (Hdue : SessionProofs.new_sub_dir_due st = false)
    (H : run_actions true rd acts f st = Ok (f', st')) :
  st' = st.
Proof.
  revert f Hs H. induction acts as [|[hms fn|] r IH]; intros f Hs H; simpl in H.
  - injection H as _ <-. reflexivity.
  - destruct (save_data true rd hms f st fn) as [[f1 st1]|e] eqn:Hsv; [|discriminate H].
    destruct (SessionProofs.save_data_enabled_spec _ _ _ _ _ _ _ Hsv) as [_ [_ [_ [Hn _]]]].
    rewrite (Hn Hdue) in H. exact (IH f1 Hs H).
  - discriminate Hs.
Qed.

Definition drive_with_subdir : fs :=
  mk_fs ["INDURANCE"]
    ["/media/peterson/INDURANCE/20251103"; "/media/peterson/INDURANCE/20251103/120000"] [].

Definition session_in_subdir : session :=
  mk_session 0 1 (Some "20251103") (Some "/media/peterson/INDURANCE/20251103/120000").

Definition two_saves : list action :=
  [ASave "120005" "20251103_120005_antenna1_state1";
   ASave "120010" "20251103_120010_antenna1_state1"].

Lemma run_saves_same_subdir_witness :
  exists f' st', run_actions true None two_saves drive_with_subdir session_in_subdir =
                 Ok (f', st') /\ st' = session_in_subdir.
Proof.
  assert (H : run_actions true None two_saves drive_with_subdir session_in_subdir =
    Ok (mk_fs ["INDURANCE"]
          ["/media/peterson/INDURANCE/20251103"; "/media/peterson/INDURANCE/20251103/120000"]
          ["/media/peterson/INDURANCE/20251103/120000/20251103_120005_antenna1_state1.npy";
           "/media/peterson/INDURANCE/20251103/120000/20251103_120010_antenna1_state1.npy"],
        session_in_subdir)) by reflexivity.
  eexists; eexists. split; [exact H|].
  exact (run_saves_same_subdir None two_saves drive_with_subdir session_in_subdir
           _ _ eq_refl eq_refl H).
Defined.

(** Over any run of enabled saves and cycle ends started with a
    non-negative cycle counter (as [main] starts it, at 0), each save
    leaves the counter at 0 and each cycle end adds one, and the
    subdirectory counter never decreases. *)
Theorem run_cycle_counter (rd : option string) (acts : list action)
    (f : fs) (st : session) (f' : fs) (st' : session)
    (Hc : (0 <= cycle_count st)%Z)
    (H : run_actions true rd acts f st = Ok (f', st')) :
  cycle_count st' = cycle_after (cycle_count st) acts /\
  (sub_dir_count st <= sub_dir_count st')%Z.
Proof.
  revert f st Hc H. induction acts as [|[hms fn|] r IH]; intros f st Hc H; simpl in H.
  - injection H as _ <-. split; [reflexivity|lia].
  - destruct (save_data true rd hms f st fn) as [[f1 st1]|e] eqn:Hsv; [|discriminate H].
    destruct (SessionProofs.save_data_enabled_spec _ _ _ _ _ _ _ Hsv)
      as [dirname [_ [Hb [Hn _]]]].
    assert (H1 : cycle_count st1 = 0%Z /\ (sub_dir_count st <= sub_dir_count st1)%Z).
    { destruct (SessionProofs.new_sub_dir_due st) eqn:Hdue.
      - destruct (Hb eq_refl) as [Hc1 [_ [_ Hs]]]. split; [exact Hc1|lia].
      - rewrite (Hn eq_refl). split; [|lia].
        unfold SessionProofs.new_sub_dir_due in Hdue.
        apply orb_false_iff in Hdue as [H1 _]. apply Z.leb_gt in H1. lia. }
    destruct H1 as [Hc1 Hs1].
    destruct (IH f1 st1 ltac:(lia) H) as [Hr Hs']. split; [|lia].
    rewrite Hr, Hc1. reflexivity.
  - destruct (IH f (end_cycle st) ltac:(simpl; lia) H) as [Hr Hs'].
    split; [exact Hr|simpl in Hs'; lia].
Qed.

Lemma run_cycle_counter_witness :
  run_actions true None [ASave "120000" "20251103_120000_antenna1_state1"; AEndCycle]
    SessionProofs.one_drive init_session =
  Ok (mk_fs ["INDURANCE"]
        ["/media/peterson/INDURANCE/20251103"; "/media/peterson/INDURANCE/20251103/120000"]
        ["/media/peterson/INDURANCE/20251103/120000/20251103_120000_antenna1_state1.npy"],
      mk_session 1 1 (Some "20251103") (Some "/media/peterson/INDURANCE/20251103/120000")) /\
  cycle_after 0 [ASave "120000" "20251103_120000_antenna1_state1"; AEndCycle] = 1%Z.
Proof.
  assert (H : run_actions true None [ASave "120000" "20251103_120000_antenna1_state1"; AEndCycle]
    SessionProofs.one_drive init_session =
  Ok (mk_fs ["INDURANCE"]
        ["/media/peterson/INDURANCE/20251103"; "/media/peterson/INDURANCE/20251103/120000"]
        ["/media/peterson/INDURANCE/20251103/120000/20251103_120000_antenna1_state1.npy"],
      mk_session 1 1 (Some "20251103") (Some "/media/peterson/INDURANCE/20251103/120000")))
    by reflexivity.
  split; [exact H|].
  destruct (run_cycle_counter None _ SessionProofs.one_drive init_session _ _
              ltac:(simpl; lia) H) as [Hr _].
  simpl in Hr. symmetry. exact Hr.
Defined.

(** A run of enabled saves stops with [IndexError] exactly when the drive
    listing is empty and the run contains a save; a cycle end alone
    never raises. *)
Theorem run_index_error (rd : option string) (acts : list action)
    (f : fs) (st : session) :
  run_actions true rd acts f st = Err IndexError <->
  drive_sessions f = [] /\ existsb is_asave acts = true.
Proof.
  revert f st. induction acts as [|[hms fn|] r IH]; intros f st; simpl.
  - split; [intros Hc; discriminate Hc|intros [_ Hc]; discriminate Hc].
  - destruct (SessionExtraProofs.save_data_err_spec rd hms f st fn) as [Hiff Hor].
    destruct (save_data true rd hms f st fn) as [[f1 st1]|e] eqn:Hsv.
    + destruct (SessionExtraProofs.save_data_storage_spec _ _ _ _ _ _ _ _ Hsv) as [Hd _].
      rewrite IH, Hd. split; [intros [He _]; split; [exact He|reflexivity]|].
      intros [He _]. apply Hiff in He. discriminate He.
    + split; [intros Hc; injection Hc as ->; split; [apply Hiff; reflexivity|reflexivity]|].
      intros [He _]. apply Hiff. exact He.
  - rewrite IH. reflexivity.
Qed.

End SessionRunProofs.

(* ------------------------------------------------------------------ *)
(** ** The collection loop of save_all_data, averaged mode *)

Module CollectProofs.
Import Averaged.

(** Three acquisitions under pairwise distinct ids fill the dict: the
    loop stops after exactly those three, the later acquisitions are not
    read, and the record is the bin-wise sum of the three spectra in
    acquisition order. *)
Theorem collect_three_distinct (k1 k2 k3 : Z) (s1 s2 s3 : list Z)
    (rest : list (Z * list Z))
    (H12 : k1 <> k2) (H13 : k1 <> k3) (H23 : k2 <> k3) :
  collect ((k1, s1) :: (k2, s2) :: (k3, s3) :: rest) [] =
    Some ([(k1, s1); (k2, s2); (k3, s3)], rest) /\
  averaged_spectrum ((k1, s1) :: (k2, s2) :: (k3, s3) :: rest) =
    Some (sum_spectrum [s1; s2; s3]).
Proof.
  assert (Hc : collect ((k1, s1) :: (k2, s2) :: (k3, s3) :: rest) [] =
                 Some ([(k1, s1); (k2, s2); (k3, s3)], rest)).
  { simpl. unfold dict_set. simpl.
    replace (k1 =? k2) with false by (symmetry; apply Z.eqb_neq; exact H12).
    simpl.
    replace (k1 =? k3) with false by (symmetry; apply Z.eqb_neq; exact H13).
    replace (k2 =? k3) with false by (symmetry; apply Z.eqb_neq; exact H23).
    simpl. destruct rest; reflexivity. }
  split; [exact Hc|]. unfold averaged_spectrum. rewrite Hc. reflexivity.
Qed.

Lemma collect_three_distinct_witness :
  averaged_spectrum [(7, [1; 2]); (8, [10; 20]); (9, [100; 200]); (10, [0; 0])] =
    Some [111; 222].
Proof.
  destruct (collect_three_distinct 7 8 9 [1; 2] [10; 20] [100; 200] [(10, [0; 0])]
              ltac:(lia) ltac:(lia) ltac:(lia)) as [_ H].
  rewrite H. reflexivity.
Defined.

Lemma collect_two_ids (k1 k2 : Z) (acqs : list (Z * list Z)) (d : dict (list Z)) :
  Forall (fun a => fst a = k1 \/ fst a = k2) acqs ->
  Forall (fun kv => fst kv = k1 \/ fst kv = k2) d ->
  NoDup (map fst d) ->
  collect acqs d = None.
Proof.
  revert d. induction acqs as [|[k s] r IH]; intros d Ha Hd Hnd.
  - assert (Hl : (List.length d <= 2)%nat).
    { rewrite <- (length_map fst d).
      change 2%nat with (List.length [k1; k2]).
      apply NoDup_incl_length; [exact Hnd|].
      intros x Hx. apply in_map_iff in Hx as [[k v] [<- Hin]].
      rewrite Forall_forall in Hd. destruct (Hd _ Hin) as [H|H]; simpl in *; auto. }
    simpl. destruct (Nat.ltb_spec (List.length d) 3); [reflexivity|lia].
  - inversion Ha as [|? ? Hk Hr]; subst.
    assert (Hl : (List.length d <= 2)%nat).
    { rewrite <- (length_map fst d).
      change 2%nat with (List.length [k1; k2]).
      apply NoDup_incl_length; [exact Hnd|].
      intros x Hx. apply in_map_iff in Hx as [[k' v] [<- Hin]].
      rewrite Forall_forall in Hd. destruct (Hd _ Hin) as [H|H]; simpl in *; auto. }
    simpl. destruct (Nat.ltb_spec (List.length d) 3) as [_|]; [|lia].
    apply IH; [exact Hr| |apply AveragedProofs.dict_set_keys; exact Hnd].
    apply Forall_forall. intros [k' v] Hin. simpl.
    unfold dict_set in Hin. destruct (existsb _ d).
    + apply in_map_iff in Hin as [[k'' v'] [Heq Hin]]. simpl in Heq.
      destruct (Z.eqb_spec k'' k) as [->|]; injection Heq as <- _.
      * exact Hk.
      * rewrite Forall_forall in Hd. exact (Hd _ Hin).
    + apply in_app_or in Hin as [Hin|[Heq|[]]].
      * rewrite Forall_forall in Hd. exact (Hd _ Hin).
      * injection Heq as <- _. exact Hk.
Qed.

(** The loop [while len(spectra) < 3] only ends once three distinct
    accumulation ids have been seen: if the counter only ever reports at
    most two ids, the averaged record is never produced. *)
Theorem averaged_needs_three_ids (k1 k2 : Z) (acqs : list (Z * list Z))
    (H : Forall (fun a => fst a = k1 \/ fst a = k2) acqs) :
  averaged_spectrum acqs = None.
Proof.
  unfold averaged_spectrum.
  rewrite (collect_two_ids k1 k2 acqs [] H (Forall_nil _) (NoDup_nil _)).
  reflexivity.
Qed.

Lemma averaged_needs_three_ids_witness :
  averaged_spectrum [(4, [1]); (5, [2]); (4, [3]); (5, [4]); (5, [5])] = None.
Proof.
  apply (averaged_needs_three_ids 4 5). repeat constructor; simpl; lia.
Defined.

End CollectProofs.
